(** * Ride-sharing analytics dashboard: the filter and metrics pipeline

    Shallow embedding of [dashboard/ridesharing_dashboard.py].

    The script loads three CSV tables (drivers, trips, payments), filters
    them by borough, date range and vehicle type, and computes scalar KPIs
    and grouped tables that are handed to the charts.

    Modelling conventions:
    - a DataFrame is the list of its rows, in row order; a row is a record
      with one field per column the script reads;
    - a cell that may be empty (pandas NaN / NaT / None) is an [option];
    - float64 columns are idealised as rationals [Q] (exact arithmetic);
      a float result that is NaN is [None];
    - a pandas Timestamp is its integer count of nanoseconds since
      1970-01-01T00:00:00, as pandas stores it;
    - Python exceptions are values of [Exception] in an error monad;
    - the module-level variables of the script form an explicit store. *)

From Stdlib Require Import List ZArith QArith Qround Bool String Ascii Lia.
From Stdlib Require Import Permutation Sorted DecimalString.
Import ListNotations.

Local Open Scope string_scope.
Local Open Scope list_scope.
Local Open Scope Z_scope.

(** ** Exceptions and the error monad *)

Inductive Exception : Type :=
| FileNotFoundError (path : string)
| KeyError (column : string)
| ValueError (msg : string)
| ZeroDivisionError
| OtherError (msg : string).

Definition Result (A : Type) : Type := (Exception + A)%type.

Definition ret {A : Type} (a : A) : Result A := inr a.
Definition raise {A : Type} (e : Exception) : Result A := inl e.

Definition bind {A B : Type} (m : Result A) (k : A -> Result B) : Result B :=
  match m with
  | inl e => inl e
  | inr a => k a
  end.

Notation "x <- m ;; k" := (bind m (fun x => k))
  (at level 61, m at next level, right associativity).

Fixpoint mapM {A B : Type} (f : A -> Result B) (l : list A) : Result (list B) :=
  match l with
  | [] => ret []
  | a :: l' => b <- f a ;; bs <- mapM f l' ;; ret (b :: bs)
  end.

(** ** Timestamps ([pandas.Timestamp], [Series.dt] accessors) *)

Definition Timestamp : Type := Z.

Definition NS_PER_HOUR : Z := 3600 * 1000000000.
Definition NS_PER_DAY : Z := 24 * NS_PER_HOUR.

(** [.dt.date]: the calendar day, as a count of days since 1970-01-01. *)
Definition dt_date (ts : Timestamp) : Z := ts / NS_PER_DAY.

(** [.dt.hour] *)
Definition dt_hour (ts : Timestamp) : Z := (ts mod NS_PER_DAY) / NS_PER_HOUR.

Definition day_names : list string :=
  ["Monday"; "Tuesday"; "Wednesday"; "Thursday"; "Friday"; "Saturday";
   "Sunday"]%string.

(** [.dt.day_name()]: 1970-01-01 was a Thursday. *)
Definition dt_day_name (ts : Timestamp) : string :=
  nth (Z.to_nat ((dt_date ts + 3) mod 7)) day_names ""%string.

(** Gregorian (year, month, day) of a day count. *)
Definition civil_from_days (days : Z) : Z * Z * Z :=
  let z := days + 719468 in
  let era := z / 146097 in
  let doe := z - era * 146097 in
  let yoe := (doe - doe / 1460 + doe / 36524 - doe / 146096) / 365 in
  let doy := doe - (365 * yoe + yoe / 4 - yoe / 100) in
  let mp := (5 * doy + 2) / 153 in
  let d := doy - (153 * mp + 2) / 5 + 1 in
  let m := if mp <? 10 then mp + 3 else mp - 9 in
  let y := yoe + era * 400 + (if m <=? 2 then 1 else 0) in
  (y, m, d).

Definition month_names : list string :=
  ["January"; "February"; "March"; "April"; "May"; "June"; "July"; "August";
   "September"; "October"; "November"; "December"]%string.

(** [.dt.month_name()] *)
Definition dt_month_name (ts : Timestamp) : string :=
  let '(_, m, _) := civil_from_days (dt_date ts) in
  nth (Z.to_nat (m - 1)) month_names ""%string.

Definition decimal (n : Z) : string :=
  NilZero.string_of_uint (N.to_uint (Z.to_N n)).

Fixpoint zeros (k : nat) : string :=
  match k with
  | O => ""%string
  | S k' => String "0"%char (zeros k')
  end.

(** Left-pad with zeros to [width] characters. *)
Definition pad (width : nat) (s : string) : string :=
  (zeros (width - String.length s)%nat ++ s)%string.

(** [.dt.to_period('M').astype(str)]: ["YYYY-MM"], and ["NaT"] for NaT. *)
Definition to_period_M_str (ts : option Timestamp) : string :=
  match ts with
  | None => "NaT"%string
  | Some t =>
      let '(y, m, _) := civil_from_days (dt_date t) in
      (pad 4 (decimal y) ++ "-" ++ pad 2 (decimal m))%string
  end.

(** ** Tables *)

Module Driver.
Record t : Type := mk {
  driver_id : Z;
  vehicle_type : string;
  status : string;
  driver_rating : option Q;
  total_trips_completed : Z
}.
End Driver.

Module RawTrip.
(** A row of [trips.csv] as [read_csv] returns it: the timestamp is
    still text. *)
Record t : Type := mk {
  trip_id : Z;
  driver_id : Z;
  pickup_borough : option string;
  dropoff_borough : option string;
  trip_datetime : option string;
  trip_status : string;
  fare_amount : option Q;
  distance_miles : option Q;
  duration_minutes : option Q;
  surge_multiplier : option Q;
  rider_rating : option Q
}.
End RawTrip.

Module Trip.
(** A row of [trips] after preprocessing.  [month_year] is the column
    the monthly-revenue step adds; [None] there means the column is not
    present in the frame. *)
Record t : Type := mk {
  trip_id : Z;
  driver_id : Z;
  pickup_borough : option string;
  dropoff_borough : option string;
  trip_datetime : option Timestamp;
  trip_status : string;
  fare_amount : option Q;
  distance_miles : option Q;
  duration_minutes : option Q;
  surge_multiplier : option Q;
  rider_rating : option Q;
  hour : option Z;
  day_of_week : option string;
  month : option string;
  month_year : option string
}.

Definition set_month_year (v : option string) (r : t) : t :=
  mk (trip_id r) (driver_id r) (pickup_borough r) (dropoff_borough r)
     (trip_datetime r) (trip_status r) (fare_amount r) (distance_miles r)
     (duration_minutes r) (surge_multiplier r) (rider_rating r)
     (hour r) (day_of_week r) (month r) v.
End Trip.

Module RawPayment.
Record t : Type := mk {
  payment_id : Z;
  trip_id : Z;
  payment_timestamp : option string;
  payment_method : string;
  payment_status : string;
  amount_charged : option Q
}.
End RawPayment.

Module Payment.
Record t : Type := mk {
  payment_id : Z;
  trip_id : Z;
  payment_timestamp : option Timestamp;
  payment_method : string;
  payment_status : string;
  amount_charged : option Q
}.
End Payment.

(** A frame as [read_csv] returns it: the header that was found in the
    file, and the rows. *)
Record Frame (R : Type) : Type := mkFrame {
  columns : list string;
  rows : list R
}.
Arguments mkFrame {R} _ _.
Arguments columns {R} _.
Arguments rows {R} _.

(** [df[col]] raises [KeyError] when the header lacks [col]. *)
Definition getitem {R : Type} (df : Frame R) (col : string) : Result unit :=
  if existsb (String.eqb col) (columns df) then ret tt else raise (KeyError col).

(** ** Loader ([load_data], lines 49-69) *)

(** The trip row with its parsed timestamp and the three calendar columns
    derived from it (lines 57-60); NaT gives empty calendar cells. *)
Definition derive_calendar (r : RawTrip.t) (ts : option Timestamp) : Trip.t :=
  Trip.mk (RawTrip.trip_id r) (RawTrip.driver_id r)
    (RawTrip.pickup_borough r) (RawTrip.dropoff_borough r)
    ts (RawTrip.trip_status r) (RawTrip.fare_amount r)
    (RawTrip.distance_miles r) (RawTrip.duration_minutes r)
    (RawTrip.surge_multiplier r) (RawTrip.rider_rating r)
    (option_map dt_hour ts) (option_map dt_day_name ts)
    (option_map dt_month_name ts) None.

Section Loader.

(** The outside world: what [pd.read_csv] finds at each path, and which
    strings [pd.to_datetime] can parse. *)
Variable read_drivers : Result (Frame Driver.t).
Variable read_trips : Result (Frame RawTrip.t).
Variable read_payments : Result (Frame RawPayment.t).
Variable parse_datetime : string -> option Timestamp.

(** [pd.to_datetime] on one cell: an empty cell becomes NaT, a string
    that does not parse raises. *)
Definition to_datetime (cell : option string) : Result (option Timestamp) :=
  match cell with
  | None => ret None
  | Some s =>
      match parse_datetime s with
      | Some ts => ret (Some ts)
      | None => raise (ValueError s)
      end
  end.

(** Lines 57-60 on one row. *)
Definition preprocess_trip (r : RawTrip.t) : Result Trip.t :=
  ts <- to_datetime (RawTrip.trip_datetime r) ;;
  ret (derive_calendar r ts).

Definition preprocess_payment (r : RawPayment.t) : Result Payment.t :=
  ts <- to_datetime (RawPayment.payment_timestamp r) ;;
  ret (Payment.mk (RawPayment.payment_id r) (RawPayment.trip_id r) ts
         (RawPayment.payment_method r) (RawPayment.payment_status r)
         (RawPayment.amount_charged r)).

(** The body of the [try] block. *)
Definition load_data_body
  : Result (list Driver.t * list Trip.t * list Payment.t) :=
  drivers <- read_drivers ;;
  trips <- read_trips ;;
  payments <- read_payments ;;
  _ <- getitem trips "trip_datetime" ;;
  trips' <- mapM preprocess_trip (rows trips) ;;
  _ <- getitem payments "payment_timestamp" ;;
  payments' <- mapM preprocess_payment (rows payments) ;;
  ret (rows drivers, trips', payments').

(** What [load_data] hands back, together with the [st.error] message
    it shows, if any. *)
Record Loaded : Type := mkLoaded {
  ld_drivers : option (list Driver.t);
  ld_trips : option (list Trip.t);
  ld_payments : option (list Payment.t);
  ld_error : option string
}.

Definition str_of_exception (e : Exception) : string :=
  match e with
  | FileNotFoundError p => p
  | KeyError c => c
  | ValueError m => m
  | ZeroDivisionError => "division by zero"
  | OtherError m => m
  end.

Definition load_data : Loaded :=
  match load_data_body with
  | inr (drivers, trips, payments) =>
      mkLoaded (Some drivers) (Some trips) (Some payments) None
  | inl (FileNotFoundError _) =>
      mkLoaded None None None
        (Some "Data files not found. Please ensure CSV files are in the same directory.")
  | inl e =>
      mkLoaded None None None
        (Some ("Error loading data: " ++ str_of_exception e)%string)
  end.

(** Lines 75-78: the script goes on only with three tables. *)
Definition script_stops (l : Loaded) : bool :=
  match ld_drivers l, ld_trips l, ld_payments l with
  | Some _, Some _, Some _ => false
  | _, _, _ => true
  end.

End Loader.

(** ** Column helpers (pandas Series operations) *)

(** [Series.isin(values)] on a column of strings: an empty cell is in no
    selection of strings. *)
Definition isin (cell : option string) (values : list string) : bool :=
  match cell with
  | Some s => existsb (String.eqb s) values
  | None => false
  end.

(** [Series.isin(other_series)] on an integer key column. *)
Definition isin_ids (id : Z) (ids : list Z) : bool := existsb (Z.eqb id) ids.

Definition dropna {A : Type} (col : list (option A)) : list A :=
  flat_map (fun c => match c with Some a => [a] | None => [] end) col.

(** [Series.sum()]: empty cells are skipped, the empty sum is 0. *)
Definition sum (col : list (option Q)) : Q :=
  fold_right Qplus 0%Q (dropna col).

Definition len {A : Type} (l : list A) : Z := Z.of_nat (List.length l).

(** [Series.mean()]: empty cells are skipped; NaN when nothing is left. *)
Definition mean (col : list (option Q)) : option Q :=
  match dropna col with
  | [] => None
  | vs => Some (fold_right Qplus 0%Q vs / inject_Z (len vs))%Q
  end.

(** Float division of two columns, cell by cell: a zero divisor gives a
    non-finite cell (inf or NaN), which is [None] here. *)
Definition div (a b : Q) : option Q :=
  if Qeq_bool b 0 then None else Some (a / b)%Q.

(** [Series.round(2)]: round half to even on the second decimal. *)
Definition round2 (x : Q) : Q :=
  let y := (x * 100)%Q in
  let f := Qfloor y in
  let r := (y - inject_Z f)%Q in
  let n := match (r ?= 1 # 2)%Q with
           | Lt => f
           | Gt => f + 1
           | Eq => if Z.even f then f else f + 1
           end in
  (inject_Z n / 100)%Q.

(** ** Group-by *)

Class GroupKey (K : Type) : Type := {
  key_eqb : K -> K -> bool;
  key_leb : K -> K -> bool
}.

#[export] Instance GroupKey_Z : GroupKey Z :=
  {| key_eqb := Z.eqb; key_leb := Z.leb |}.
#[export] Instance GroupKey_string : GroupKey string :=
  {| key_eqb := String.eqb; key_leb := String.leb |}.
#[export] Instance GroupKey_Q : GroupKey Q :=
  {| key_eqb := Qeq_bool; key_leb := Qle_bool |}.

Section GroupBy.
Context {K : Type} `{GroupKey K}.

Definition mem (k : K) (l : list K) : bool := existsb (key_eqb k) l.

(** Distinct values, in order of first appearance ([Series.unique]). *)
Fixpoint unique_from (seen : list K) (l : list K) : list K :=
  match l with
  | [] => []
  | k :: l' =>
      if mem k seen then unique_from seen l'
      else k :: unique_from (k :: seen) l'
  end.
Definition unique (l : list K) : list K := unique_from [] l.

Fixpoint insert_key (k : K) (l : list K) : list K :=
  match l with
  | [] => [k]
  | x :: l' => if key_leb k x then k :: l else x :: insert_key k l'
  end.

(** Ascending sort of the group keys. *)
Definition sort_keys (l : list K) : list K := fold_right insert_key [] l.

Definition has_key {R : Type} (key : R -> option K) (k : K) (r : R) : bool :=
  match key r with
  | Some k' => key_eqb k' k
  | None => false
  end.

(** [df.groupby(col)]: one group per distinct non-empty key, groups in
    ascending key order (sort=True), rows of a group in frame order;
    rows whose key cell is empty belong to no group (dropna=True). *)
Definition groupby {R : Type} (key : R -> option K) (df : list R)
  : list (K * list R) :=
  map (fun k => (k, filter (has_key key k) df))
      (sort_keys (unique (dropna (map key df)))).

(** [.agg(f)] / [.size()] / [.sum()] / [.mean()] on the groups, followed
    by [reset_index]: one output row per group. *)
Definition agg {R V : Type} (f : list R -> V) (g : list (K * list R))
  : list (K * V) :=
  map (fun kg => (fst kg, f (snd kg))) g.

(** [Series.get(k)] on a series indexed by group key. *)
Fixpoint lookup {V : Type} (k : K) (s : list (K * V)) : option V :=
  match s with
  | [] => None
  | (k', v) :: s' => if key_eqb k' k then Some v else lookup k s'
  end.

(** [Series.reindex(index)]: one row per label of [index], in that
    order; a label the series lacks gets an empty (NaN) cell. *)
Definition reindex {V : Type} (index : list K) (s : list (K * V))
  : list (K * option V) :=
  map (fun k => (k, lookup k s)) index.

Fixpoint insert_row {V : Type} (kv : K * V) (s : list (K * V))
  : list (K * V) :=
  match s with
  | [] => [kv]
  | x :: s' =>
      if key_leb (fst kv) (fst x) then kv :: s else x :: insert_row kv s'
  end.

(** [Series.sort_index()] *)
Definition sort_index {V : Type} (s : list (K * V)) : list (K * V) :=
  fold_right insert_row [] s.

End GroupBy.

(** Descending stable sort of rows on a float column: rows with equal
    values keep their frame order.  This is the order of
    [DataFrame.nlargest(keep='first')]; [sort_values(ascending=False)]
    promises no order among equal values and is modelled the same way. *)
Section SortDesc.
Context {R : Type} (col : R -> Q).

Fixpoint insert_desc (r : R) (l : list R) : list R :=
  match l with
  | [] => [r]
  | x :: l' =>
      if Qle_bool (col x) (col r) then r :: l else x :: insert_desc r l'
  end.

Definition sort_desc (df : list R) : list R := fold_right insert_desc [] df.

(** [df.nlargest(n, col)], default [keep='first']. *)
Definition nlargest (n : nat) (df : list R) : list R :=
  firstn n (sort_desc df).
End SortDesc.

(** [Series.value_counts()]: distinct non-empty values with their number of
    occurrences, most frequent first. *)
Definition value_counts {K : Type} `{GroupKey K} (col : list (option K))
  : list (K * Z) :=
  sort_desc (fun kv => inject_Z (snd kv))
    (agg len (groupby (fun c => c) col)).

(** ** Filter engine (lines 83-129) *)

Record Selection : Type := mkSelection {
  selected_pickup : list string;
  selected_dropoff : list string;
  selected_vehicle_types : list string;
  date_range : Z * Z
}.

(** [trip_datetime.dt.date >= d]: false on NaT. *)
Definition date_ge (ts : option Timestamp) (d : Z) : bool :=
  match ts with Some t => d <=? dt_date t | None => false end.
Definition date_le (ts : option Timestamp) (d : Z) : bool :=
  match ts with Some t => dt_date t <=? d | None => false end.

(** The boolean mask of lines 110-113. *)
Definition trip_mask (sel : Selection) (t : Trip.t) : bool :=
  isin (Trip.pickup_borough t) (selected_pickup sel)
  && isin (Trip.dropoff_borough t) (selected_dropoff sel)
  && date_ge (Trip.trip_datetime t) (fst (date_range sel))
  && date_le (Trip.trip_datetime t) (snd (date_range sel)).

Definition filtered_trips (trips : list Trip.t) (sel : Selection)
  : list Trip.t :=
  filter (trip_mask sel) trips.

Module TripDriver.
(** A row of the trips/drivers merge: the trip columns plus the
    driver's [vehicle_type], empty when no driver matched. *)
Record t : Type := mk {
  trip : Trip.t;
  vehicle_type : option string
}.
End TripDriver.

(** The rows a left merge on [driver_id] produces for one trip: one per
    matching driver row, in driver order, or one with an empty
    [vehicle_type] when there is none. *)
Definition merge_trip (drivers : list Driver.t) (t : Trip.t)
  : list TripDriver.t :=
  match filter (fun d => Driver.driver_id d =? Trip.driver_id t) drivers with
  | [] => [TripDriver.mk t None]
  | ds => map (fun d => TripDriver.mk t (Some (Driver.vehicle_type d))) ds
  end.

(** [filtered_trips.merge(drivers[['driver_id','vehicle_type']],
    on='driver_id', how='left')] *)
Definition merge_trips_drivers (ft : list Trip.t) (drivers : list Driver.t)
  : list TripDriver.t :=
  flat_map (merge_trip drivers) ft.

Definition vehicle_mask (sel : Selection) (r : TripDriver.t) : bool :=
  isin (TripDriver.vehicle_type r) (selected_vehicle_types sel).

(** Lines 117-126. *)
Definition filtered_trips_with_drivers
  (ft : list Trip.t) (drivers : list Driver.t) (sel : Selection)
  : list TripDriver.t :=
  filter (vehicle_mask sel) (merge_trips_drivers ft drivers).

(** Line 128. *)
Definition filtered_drivers (drivers : list Driver.t) (ft : list Trip.t)
  : list Driver.t :=
  filter (fun d => isin_ids (Driver.driver_id d) (map Trip.driver_id ft))
         drivers.

(** Line 129. *)
Definition filtered_payments (payments : list Payment.t) (ft : list Trip.t)
  : list Payment.t :=
  filter (fun p => isin_ids (Payment.trip_id p) (map Trip.trip_id ft))
         payments.

(** The module-level frames the metrics read: the loader's tables and the
    filter engine's outputs.  Each is an object of its own (boolean
    indexing and [merge] return new frames), so a write to one does not
    show in another. *)
Module Store.
Record t : Type := mk {
  drivers : list Driver.t;
  trips : list Trip.t;
  payments : list Payment.t;
  filtered_trips : list Trip.t;
  filtered_trips_with_drivers : list TripDriver.t;
  filtered_drivers : list Driver.t;
  filtered_payments : list Payment.t
}.

Definition set_filtered_trips (ft : list Trip.t) (s : t) : t :=
  mk (drivers s) (trips s) (payments s) ft
     (filtered_trips_with_drivers s) (filtered_drivers s)
     (filtered_payments s).
End Store.

(** Lines 108-129, from the loaded tables and the operator's selection. *)
Definition run_filters
  (drivers : list Driver.t) (trips : list Trip.t) (payments : list Payment.t)
  (sel : Selection) : Store.t :=
  let ft := filtered_trips trips sel in
  Store.mk drivers trips payments ft
    (filtered_trips_with_drivers ft drivers sel)
    (filtered_drivers drivers ft)
    (filtered_payments payments ft).

(** ** Metrics engine (lines 131-491) *)

Definition completed (t : Trip.t) : bool :=
  String.eqb (Trip.trip_status t) "completed".

Definition successful (p : Payment.t) : bool :=
  String.eqb (Payment.payment_status p) "successful".

(** Python's [a / b] on two [int]s. *)
Definition truediv (a b : Z) : Result Q :=
  if b =? 0 then raise ZeroDivisionError
  else ret (inject_Z a / inject_Z b)%Q.

(** *** KPI row (lines 135-163) *)

Definition total_trips (ft : list Trip.t) : Z := len ft.

(** Line 143 (and again line 488, [completion_rate_val]). *)
Definition completion_rate (ft : list Trip.t) : Result Q :=
  q <- truediv (len (filter completed ft)) (len ft) ;;
  ret (q * 100)%Q.

Definition avg_fare (ft : list Trip.t) : option Q :=
  mean (map Trip.fare_amount (filter completed ft)).

Definition total_revenue (fp : list Payment.t) : Q :=
  sum (map Payment.amount_charged (filter successful fp)).

Definition active_drivers (fd : list Driver.t) : Z :=
  len (filter (fun d => String.eqb (Driver.status d) "Active") fd).

(** *** Rate tables (borough, surge, payment method) *)

Record RateRow (K : Type) : Type := mkRateRow {
  rr_key : K;
  rr_total : Z;
  rr_hits : Z;
  rr_rate : option Q
}.
Arguments mkRateRow {K} _ _ _ _.
Arguments rr_key {K} _.
Arguments rr_total {K} _.
Arguments rr_hits {K} _.
Arguments rr_rate {K} _.

(** [groupby(key).agg({id: 'count', status: lambda x: (x == v).sum()})]
    and the rate column [(hits / total) * 100]. *)
Definition rate_table {K R : Type} `{GroupKey K}
  (key : R -> option K) (hit : R -> bool) (df : list R) : list (RateRow K) :=
  map (fun kg =>
         let total := len (snd kg) in
         let hits := len (filter hit (snd kg)) in
         mkRateRow (fst kg) total hits
           (option_map (fun q => q * 100)%Q
              (div (inject_Z hits) (inject_Z total))))
      (groupby key df).

(** *** Tab 1: market analysis (lines 168-243) *)

Definition borough_completion (ft : list Trip.t) : list (RateRow string) :=
  rate_table Trip.pickup_borough completed ft.

Definition vehicle_dist (ftd : list TripDriver.t) : list (string * Z) :=
  value_counts (map TripDriver.vehicle_type ftd).

Definition cancellation_data (ft : list Trip.t) : list (string * Z) :=
  value_counts
    (map (fun t => Some (Trip.trip_status t))
         (filter (fun t => negb (completed t)) ft)).

Definition surge_completion (ft : list Trip.t) : list (RateRow Q) :=
  rate_table Trip.surge_multiplier completed ft.

(** *** Tab 2: driver performance (lines 245-336) *)

Definition driver_ratings (fd : list Driver.t) : list Q :=
  dropna (map Driver.driver_rating fd).

Definition experience_trips (fd : list Driver.t) : list (Z * option Q) :=
  agg (fun g => mean (map Driver.driver_rating g))
      (groupby (fun d => Some (Driver.total_trips_completed d)) fd).

Module DriverMetrics.
Record t : Type := mk {
  driver_id : Z;
  trips_completed : Z;
  total_earnings : Q;
  total_distance : Q;
  total_time : Q;
  avg_trip_rating : option Q;
  vehicle_type : option string;
  driver_rating : option Q;
  earnings_per_trip : option Q;
  earnings_per_hour : option Q
}.
End DriverMetrics.

Definition trip_column {A : Type} (f : Trip.t -> A) (g : list TripDriver.t)
  : list A :=
  map (fun r => f (TripDriver.trip r)) g.

(** One row of lines 284-302: the aggregates of a driver's group [g],
    the two columns merged in from a driver row (or empty cells), and the
    two efficiency columns. *)
Definition driver_metrics_row
  (id : Z) (g : list TripDriver.t) (vt : option string) (dr : option Q)
  : DriverMetrics.t :=
  let trips_completed := len g in
  let total_earnings := sum (trip_column Trip.fare_amount g) in
  let total_time := sum (trip_column Trip.duration_minutes g) in
  DriverMetrics.mk id trips_completed total_earnings
    (sum (trip_column Trip.distance_miles g))
    total_time
    (mean (trip_column Trip.rider_rating g))
    vt dr
    (option_map round2 (div total_earnings (inject_Z trips_completed)))
    (option_map round2 (div total_earnings (total_time / 60)%Q)).

(** The left merge with [drivers[['driver_id','vehicle_type',
    'driver_rating']]] for one group. *)
Definition merge_metrics (drivers : list Driver.t) (kg : Z * list TripDriver.t)
  : list DriverMetrics.t :=
  let '(id, g) := kg in
  match filter (fun d => Driver.driver_id d =? id) drivers with
  | [] => [driver_metrics_row id g None None]
  | ds =>
      map (fun d => driver_metrics_row id g (Some (Driver.vehicle_type d))
                      (Driver.driver_rating d))
          ds
  end.

Definition driver_metrics (ftd : list TripDriver.t) (drivers : list Driver.t)
  : list DriverMetrics.t :=
  flat_map (merge_metrics drivers)
    (groupby (fun r => Some (Trip.driver_id (TripDriver.trip r)))
       (filter (fun r => completed (TripDriver.trip r)) ftd)).

(** Line 308. *)
Definition top_earners (dm : list DriverMetrics.t) : list DriverMetrics.t :=
  nlargest DriverMetrics.total_earnings 15 dm.

(** Line 324. *)
Definition efficiency_data (dm : list DriverMetrics.t)
  : list DriverMetrics.t :=
  filter (fun r => 5 <=? DriverMetrics.trips_completed r) dm.

(** *** Tab 3: financial insights (lines 338-413) *)

(** Lines 345-346. *)
Definition payment_revenue (fp : list Payment.t) : list (string * Q) :=
  sort_desc snd
    (agg (fun g => sum (map Payment.amount_charged g))
         (groupby (fun p => Some (Payment.payment_method p)) fp)).

Definition payment_success (fp : list Payment.t) : list (RateRow string) :=
  rate_table (fun p => Some (Payment.payment_method p)) successful fp.

(** Line 388: the assignment [filtered_trips['month_year'] = ...] writes
    the new column into the frame [filtered_trips] itself. *)
Definition add_month_year (ft : list Trip.t) : list Trip.t :=
  map (fun t =>
         Trip.set_month_year (Some (to_period_M_str (Trip.trip_datetime t))) t)
      ft.

(** Line 389, on the frame that has the column. *)
Definition monthly_revenue (ft : list Trip.t) : list (string * Q) :=
  agg (fun g => sum (map Trip.fare_amount g))
      (groupby Trip.month_year (filter completed ft)).

Definition vehicle_revenue (ftd : list TripDriver.t) : list (string * Q) :=
  agg (fun g => sum (trip_column Trip.fare_amount g))
      (groupby TripDriver.vehicle_type
         (filter (fun r => completed (TripDriver.trip r)) ftd)).

(** *** Tab 4: demand patterns (lines 415-482) *)

(** Line 422. *)
Definition hourly_demand (ft : list Trip.t) : list (Z * Z) :=
  agg len (groupby Trip.hour ft).

Definition day_order : list string :=
  ["Monday"; "Tuesday"; "Wednesday"; "Thursday"; "Friday"; "Saturday";
   "Sunday"].

(** Line 438. *)
Definition daily_demand (ft : list Trip.t) : list (string * option Z) :=
  reindex day_order (agg len (groupby Trip.day_of_week ft)).

(** [value_counts().sort_index()]: the counts, by ascending value. *)
Definition surge_dist (ft : list Trip.t) : list (Q * Z) :=
  sort_index (value_counts (map Trip.surge_multiplier ft)).

Definition surge_fare (ft : list Trip.t) : list (Q * option Q) :=
  agg (fun g => mean (map Trip.fare_amount g))
      (groupby Trip.surge_multiplier (filter completed ft)).

(** *** Strategic insights (lines 488-491) *)

Definition payment_success_rate (fp : list Payment.t) : Result Q :=
  q <- truediv (len (filter successful fp)) (len fp) ;;
  ret (q * 100)%Q.

Definition avg_rating (ft : list Trip.t) : option Q :=
  mean (map Trip.rider_rating ft).

Definition avg_surge (ft : list Trip.t) : option Q :=
  mean (map Trip.surge_multiplier ft).

(** *** The metrics run over the store *)

Record KPIs : Type := mkKPIs {
  k_total_trips : Z;
  k_completion_rate : Q;
  k_avg_fare : option Q;
  k_total_revenue : Q;
  k_active_drivers : Z
}.

Record Tab1 : Type := mkTab1 {
  t1_borough_completion : list (RateRow string);
  t1_vehicle_dist : list (string * Z);
  t1_cancellation_data : list (string * Z);
  t1_surge_completion : list (RateRow Q)
}.

Record Tab2 : Type := mkTab2 {
  t2_driver_ratings : list Q;
  t2_experience_trips : list (Z * option Q);
  t2_driver_metrics : list DriverMetrics.t;
  t2_top_earners : list DriverMetrics.t;
  t2_efficiency_data : list DriverMetrics.t
}.

Record Tab3 : Type := mkTab3 {
  t3_payment_revenue : list (string * Q);
  t3_payment_success : list (RateRow string);
  t3_monthly_revenue : list (string * Q);
  t3_vehicle_revenue : list (string * Q)
}.

Record Tab4 : Type := mkTab4 {
  t4_hourly_demand : list (Z * Z);
  t4_daily_demand : list (string * option Z);
  t4_surge_dist : list (Q * Z);
  t4_surge_fare : list (Q * option Q)
}.

Record Insights : Type := mkInsights {
  i_completion_rate_val : Q;
  i_avg_rating : option Q;
  i_payment_success_rate : Q;
  i_avg_surge : option Q
}.

Record Outputs : Type := mkOutputs {
  o_kpis : KPIs;
  o_tab1 : Tab1;
  o_tab2 : Tab2;
  o_tab3 : Tab3;
  o_tab4 : Tab4;
  o_insights : Insights
}.

Definition kpi_row (s : Store.t) : Result KPIs :=
  rate <- completion_rate (Store.filtered_trips s) ;;
  ret (mkKPIs (total_trips (Store.filtered_trips s)) rate
         (avg_fare (Store.filtered_trips s))
         (total_revenue (Store.filtered_payments s))
         (active_drivers (Store.filtered_drivers s))).

Definition tab1 (s : Store.t) : Tab1 :=
  mkTab1 (borough_completion (Store.filtered_trips s))
    (vehicle_dist (Store.filtered_trips_with_drivers s))
    (cancellation_data (Store.filtered_trips s))
    (surge_completion (Store.filtered_trips s)).

Definition tab2 (s : Store.t) : Tab2 :=
  let dm := driver_metrics (Store.filtered_trips_with_drivers s)
              (Store.drivers s) in
  mkTab2 (driver_ratings (Store.filtered_drivers s))
    (experience_trips (Store.filtered_drivers s))
    dm (top_earners dm) (efficiency_data dm).

(** Tab 3 is the one block that writes to a frame it did not create. *)
Definition tab3 (s : Store.t) : Store.t * Tab3 :=
  let pr := payment_revenue (Store.filtered_payments s) in
  let ps := payment_success (Store.filtered_payments s) in
  let s' := Store.set_filtered_trips
              (add_month_year (Store.filtered_trips s)) s in
  (s', mkTab3 pr ps
         (monthly_revenue (Store.filtered_trips s'))
         (vehicle_revenue (Store.filtered_trips_with_drivers s'))).

Definition tab4 (s : Store.t) : Tab4 :=
  mkTab4 (hourly_demand (Store.filtered_trips s))
    (daily_demand (Store.filtered_trips s))
    (surge_dist (Store.filtered_trips s))
    (surge_fare (Store.filtered_trips s)).

Definition insights (s : Store.t) : Result Insights :=
  rate <- completion_rate (Store.filtered_trips s) ;;
  psr <- payment_success_rate (Store.filtered_payments s) ;;
  ret (mkInsights rate (avg_rating (Store.filtered_trips s)) psr
         (avg_surge (Store.filtered_trips s))).

(** Lines 131-491 in script order; an exception ends the run. *)
Definition run_metrics (s : Store.t) : Result (Store.t * Outputs) :=
  k <- kpi_row s ;;
  let t1 := tab1 s in
  let t2 := tab2 s in
  let '(s', t3) := tab3 s in
  let t4 := tab4 s' in
  i <- insights s' ;;
  ret (s', mkOutputs k t1 t2 t3 t4 i).

(** The whole script after a successful load. *)
Definition dashboard
  (drivers : list Driver.t) (trips : list Trip.t) (payments : list Payment.t)
  (sel : Selection) : Result (Store.t * Outputs) :=
  run_metrics (run_filters drivers trips payments sel).

(** ** Sample data *)

Module Sample.

Definition at_ (day hour : Z) : option Timestamp :=
  Some (day * NS_PER_DAY + hour * NS_PER_HOUR).

(** Day counts: 2024-01-02 (a Tuesday) is 19724, 2024-01-05 (a Friday)
    is 19727, 2024-01-06 is 19728, 2024-02-01 is 19754. *)
Definition trip
  (id driver : Z) (pickup dropoff : string) (ts : option Timestamp)
  (status : string) (fare : option Q) : Trip.t :=
  derive_calendar
    (RawTrip.mk id driver (Some pickup) (Some dropoff) None status fare
       (Some 3%Q) (Some 30%Q) (Some 1%Q) (Some 5%Q))
    ts.

Definition drivers : list Driver.t :=
  [ Driver.mk 1 "Sedan" "Active" (Some 4.5%Q) 120;
    Driver.mk 2 "SUV" "Active" (Some 4.8%Q) 80;
    Driver.mk 3 "Sedan" "Inactive" None 10 ].

(** The three trips of the end-to-end scenario; the third one names a
    driver that is not in [drivers]. *)
Definition t1 : Trip.t :=
  trip 101 1 "Manhattan" "Brooklyn" (at_ 19727 8) "completed" (Some 20%Q).
Definition t2 : Trip.t :=
  trip 102 2 "Manhattan" "Queens" (at_ 19728 17) "cancelled" None.
Definition t3 : Trip.t :=
  trip 103 9 "Bronx" "Brooklyn" (at_ 19754 8) "completed" (Some 30%Q).
Definition trips : list Trip.t := [t1; t2; t3].

Definition payments : list Payment.t :=
  [ Payment.mk 1001 101 (at_ 19727 9) "card" "successful" (Some 20%Q);
    Payment.mk 1002 102 (at_ 19728 18) "card" "failed" (Some 10%Q);
    Payment.mk 1003 103 (at_ 19754 9) "cash" "successful" (Some 30%Q) ].

Definition everything : Selection :=
  mkSelection ["Bronx"; "Manhattan"] ["Brooklyn"; "Queens"]
    ["SUV"; "Sedan"] (19727, 19754).

(** The selection of the end-to-end scenario: January 2024, pickups in
    Manhattan. *)
Definition january_manhattan : Selection :=
  mkSelection ["Manhattan"] ["Brooklyn"; "Queens"] ["SUV"; "Sedan"]
    (19723, 19753).

(** No pickup borough ticked. *)
Definition nothing : Selection :=
  mkSelection [] ["Brooklyn"; "Queens"] ["SUV"; "Sedan"] (19727, 19754).

(** Three Tuesday trips and two Friday trips. *)
Definition tue_fri : list Trip.t :=
  [ trip 201 1 "Manhattan" "Brooklyn" (at_ 19724 7) "completed" (Some 10%Q);
    trip 202 1 "Manhattan" "Brooklyn" (at_ 19727 7) "completed" (Some 10%Q);
    trip 203 2 "Manhattan" "Queens" (at_ 19724 9) "completed" (Some 10%Q);
    trip 204 2 "Manhattan" "Queens" (at_ 19727 18) "cancelled" None;
    trip 205 1 "Bronx" "Queens" (at_ 19724 18) "completed" (Some 10%Q) ].

(** Drivers 1 and 2 both earn 20 (driver 2's trip comes first in the
    frame), driver 3 earns 30. *)
Definition tied : list Trip.t :=
  [ trip 301 2 "Manhattan" "Queens" (at_ 19727 7) "completed" (Some 20%Q);
    trip 302 1 "Manhattan" "Queens" (at_ 19727 8) "completed" (Some 5%Q);
    trip 303 3 "Manhattan" "Queens" (at_ 19727 9) "completed" (Some 30%Q);
    trip 304 1 "Manhattan" "Queens" (at_ 19728 8) "completed" (Some 15%Q) ].

End Sample.

(** ** Vocabulary of the statements *)

(** Keys whose boolean equality is Leibniz equality (integers, strings). *)
Class LawfulKey (K : Type) `{GroupKey K} : Prop := {
  key_eqb_eq : forall a b : K, key_eqb a b = true <-> a = b
}.

(** Number of rows of [ft] that fall on day [d]. *)
Definition trips_on (d : string) (ft : list Trip.t) : Z :=
  len (filter (has_key Trip.day_of_week d) ft).

(** Number of rows of [ft] that start in hour [h]. *)
Definition trips_at (h : Z) (ft : list Trip.t) : Z :=
  len (filter (has_key Trip.hour h) ft).

(** [a] may stand before [b] in the earnings ranking: higher earnings
    first, and on equal earnings the smaller [driver_id] first. *)
Definition ranks_before (a b : DriverMetrics.t) : Prop :=
  (DriverMetrics.total_earnings b < DriverMetrics.total_earnings a)%Q
  \/ (DriverMetrics.total_earnings a == DriverMetrics.total_earnings b)%Q
     /\ DriverMetrics.driver_id a <= DriverMetrics.driver_id b.

(** Rows in ascending [driver_id] order. *)
Definition id_le (a b : DriverMetrics.t) : Prop :=
  DriverMetrics.driver_id a <= DriverMetrics.driver_id b.

(** Sum of a column of floats that has no empty cell. *)
Definition total (col : list Q) : Q := fold_right Qplus 0%Q col.

(** The value a cell adds to a sum: an empty cell adds nothing. *)
Definition cell (c : option Q) : Q :=
  match c with Some q => q | None => 0%Q end.

(** [Series.notna()] on one cell. *)
Definition notna {A : Type} (c : option A) : bool :=
  match c with Some _ => true | None => false end.

(** Sum of a column of integers. *)
Definition totalZ (col : list Z) : Z := fold_right Z.add 0 col.

(** A count cell read as a number: an empty (NaN) cell counts for 0. *)
Definition count_or_zero (c : option Z) : Z :=
  match c with Some n => n | None => 0 end.

(** The calendar columns of a trip row are those of its timestamp, and
    the row has no [month_year] cell yet: the state of a row as the loader
    leaves it. *)
Definition calendar_ok (t : Trip.t) : Prop :=
  Trip.hour t = option_map dt_hour (Trip.trip_datetime t)
  /\ Trip.day_of_week t = option_map dt_day_name (Trip.trip_datetime t)
  /\ Trip.month t = option_map dt_month_name (Trip.trip_datetime t)
  /\ Trip.month_year t = None.

(** The message shown when a data file is missing (line 65). *)
Definition not_found_message : string :=
  "Data files not found. Please ensure CSV files are in the same directory.".

(** The completed rows of driver [id] in the vehicle-filtered trip
    table. *)
Definition completed_trips_of (id : Z) (ftd : list TripDriver.t)
  : list TripDriver.t :=
  filter (fun r => Trip.driver_id (TripDriver.trip r) =? id)
    (filter (fun r => completed (TripDriver.trip r)) ftd).

(** * Properties *)

(** ** The error monad *)

Lemma bind_inr {A B : Type} (m : Result A) (k : A -> Result B) (b : B) :
  bind m k = inr b -> exists a, m = inr a /\ k a = inr b.
Proof.
  destruct m as [e | a]; simpl; intros Hk.
  - discriminate.
  - exists a. split; [reflexivity | exact Hk].
Qed.

Lemma mapM_inr {A B : Type} (f : A -> Result B) (l : list A) (bs : list B) :
  mapM f l = inr bs -> Forall2 (fun a b => f a = inr b) l bs.
Proof.
  revert bs. induction l as [| a l IH]; simpl; intros bs Hm.
  - injection Hm as <-. constructor.
  - apply bind_inr in Hm. destruct Hm as [b [Hb Hm]].
    apply bind_inr in Hm. destruct Hm as [bs' [Hbs Hm]].
    injection Hm as <-. constructor; auto.
Qed.

Lemma getitem_inr {R : Type} (df : Frame R) (col : string) (u : unit) :
  getitem df col = inr u -> In col (columns df).
Proof.
  unfold getitem. destruct (existsb (String.eqb col) (columns df)) eqn:E.
  - intros _. apply existsb_exists in E. destruct E as [c [Hc E]].
    apply String.eqb_eq in E. subst c. exact Hc.
  - discriminate.
Qed.

(** ** Loader *)

(** A successful [try] block read all three files, found both timestamp
    columns, and parsed every timestamp cell. *)
Lemma load_data_body_inr
  (rd : Result (Frame Driver.t)) (rt : Result (Frame RawTrip.t))
  (rp : Result (Frame RawPayment.t)) (parse : string -> option Timestamp)
  (d : list Driver.t) (t : list Trip.t) (p : list Payment.t) :
  load_data_body rd rt rp parse = inr (d, t, p) ->
  exists fd ft fp,
    rd = inr fd /\ rt = inr ft /\ rp = inr fp /\ d = rows fd
    /\ In "trip_datetime" (columns ft)
    /\ In "payment_timestamp" (columns fp)
    /\ Forall2 (fun raw row => preprocess_trip parse raw = inr row)
         (rows ft) t
    /\ Forall2 (fun raw row => preprocess_payment parse raw = inr row)
         (rows fp) p.
Proof.
  unfold load_data_body. intros Hb.
  apply bind_inr in Hb. destruct Hb as [fd [Hd Hb]].
  apply bind_inr in Hb. destruct Hb as [ft [Ht Hb]].
  apply bind_inr in Hb. destruct Hb as [fp [Hp Hb]].
  apply bind_inr in Hb. destruct Hb as [u1 [Hc1 Hb]].
  apply bind_inr in Hb. destruct Hb as [t' [Hmt Hb]].
  apply bind_inr in Hb. destruct Hb as [u2 [Hc2 Hb]].
  apply bind_inr in Hb. destruct Hb as [p' [Hmp Hb]].
  injection Hb as <- <- <-.
  exists fd, ft, fp. repeat split; try assumption.
  - eapply getitem_inr; eassumption.
  - eapply getitem_inr; eassumption.
  - apply mapM_inr; assumption.
  - apply mapM_inr; assumption.
Qed.

(** C6.  Whatever the three reads return and whatever timestamps parse,
    [load_data] hands back either all three tables (and then every file
    was read, both timestamp columns were there and every timestamp cell
    parsed) or no table at all, with an error message; in the second case
    the script stops.  There is no outcome with some tables and not
    others. *)
Theorem load_data_all_or_nothing
  (rd : Result (Frame Driver.t)) (rt : Result (Frame RawTrip.t))
  (rp : Result (Frame RawPayment.t)) (parse : string -> option Timestamp) :
  let l := load_data rd rt rp parse in
  (exists d t p fd ft fp,
      ld_drivers l = Some d /\ ld_trips l = Some t /\ ld_payments l = Some p
      /\ ld_error l = None /\ script_stops l = false
      /\ rd = inr fd /\ rt = inr ft /\ rp = inr fp /\ d = rows fd
      /\ Forall2 (fun raw row => preprocess_trip parse raw = inr row)
           (rows ft) t
      /\ Forall2 (fun raw row => preprocess_payment parse raw = inr row)
           (rows fp) p)
  \/ (ld_drivers l = None /\ ld_trips l = None /\ ld_payments l = None
      /\ script_stops l = true
      /\ exists e msg,
           load_data_body rd rt rp parse = inl e /\ ld_error l = Some msg).
Proof.
  unfold load_data.
  destruct (load_data_body rd rt rp parse) as [e | [[d t] p]] eqn:Hb.
  - right. destruct e; cbn; repeat split; eexists; eexists;
      (split; [reflexivity | reflexivity]).
  - left. apply load_data_body_inr in Hb.
    destruct Hb as [fd [ft [fp (Hd & Ht & Hp & Hrows & _ & _ & Hts & Hps)]]].
    exists d, t, p, fd, ft, fp. cbn. repeat split; assumption.
Qed.

(** ** Filter engine *)

Lemma filter_idempotent {A : Type} (f : A -> bool) (l : list A) :
  filter f (filter f l) = filter f l.
Proof.
  induction l as [| a l IH]; simpl.
  - reflexivity.
  - destruct (f a) eqn:Ha; simpl.
    + rewrite Ha, IH. reflexivity.
    + exact IH.
Qed.

(** C8.  Filtering an already filtered trip table with the same selection
    changes nothing. *)
Theorem filtered_trips_idempotent (T : list Trip.t) (S : Selection) :
  filtered_trips (filtered_trips T S) S = filtered_trips T S.
Proof.
  unfold filtered_trips. apply filter_idempotent.
Qed.

Lemma merge_trip_trip (drivers : list Driver.t) (t : Trip.t) (r : TripDriver.t) :
  In r (merge_trip drivers t) -> TripDriver.trip r = t.
Proof.
  unfold merge_trip.
  destruct (filter (fun d => Driver.driver_id d =? Trip.driver_id t) drivers)
    as [| d ds].
  - intros [<- | []]. reflexivity.
  - intros Hin. apply in_map_iff in Hin. destruct Hin as [d' [<- _]].
    reflexivity.
Qed.

Lemma merge_trip_unresolved (drivers : list Driver.t) (t : Trip.t) :
  (forall d, In d drivers -> Driver.driver_id d <> Trip.driver_id t) ->
  merge_trip drivers t = [TripDriver.mk t None].
Proof.
  intros Hno. unfold merge_trip.
  destruct (filter (fun d => Driver.driver_id d =? Trip.driver_id t) drivers)
    as [| d ds] eqn:Hf.
  - reflexivity.
  - assert (Hd : In d (d :: ds)) by (left; reflexivity).
    rewrite <- Hf in Hd. apply filter_In in Hd. destruct Hd as [Hd Heq].
    apply Z.eqb_eq in Heq. exfalso. exact (Hno d Hd Heq).
Qed.

(** C4.  A trip that passes the borough and date mask and whose
    [driver_id] matches no driver row is in [filtered_trips]; the left
    merge gives it exactly one row, with an empty [vehicle_type]; and no
    row of [filtered_trips_with_drivers] comes from it, whatever vehicle
    types are selected. *)
Theorem unresolved_driver_trip
  (drivers : list Driver.t) (trips : list Trip.t) (sel : Selection)
  (t : Trip.t) :
  In t trips ->
  trip_mask sel t = true ->
  (forall d, In d drivers -> Driver.driver_id d <> Trip.driver_id t) ->
  let ft := filtered_trips trips sel in
  In t ft
  /\ merge_trip drivers t = [TripDriver.mk t None]
  /\ In (TripDriver.mk t None) (merge_trips_drivers ft drivers)
  /\ (forall r, In r (merge_trips_drivers ft drivers) ->
                TripDriver.trip r = t -> TripDriver.vehicle_type r = None)
  /\ (forall r, In r (filtered_trips_with_drivers ft drivers sel) ->
                TripDriver.trip r <> t).
Proof.
  intros Hin Hmask Hno ft.
  assert (Hft : In t ft) by (apply filter_In; split; assumption).
  pose proof (merge_trip_unresolved drivers t Hno) as Hm.
  assert (Hrow : forall r, In r (merge_trips_drivers ft drivers) ->
                 TripDriver.trip r = t -> r = TripDriver.mk t None).
  { intros r Hr Ht. apply in_flat_map in Hr. destruct Hr as [t' [_ Hr]].
    pose proof (merge_trip_trip _ _ _ Hr) as Ht'.
    rewrite Ht in Ht'. subst t'. rewrite Hm in Hr.
    destruct Hr as [<- | []]. reflexivity. }
  repeat split.
  - exact Hft.
  - exact Hm.
  - apply in_flat_map. exists t. split; [exact Hft |].
    rewrite Hm. left. reflexivity.
  - intros r Hr Ht. rewrite (Hrow r Hr Ht). reflexivity.
  - intros r Hr Ht. apply filter_In in Hr. destruct Hr as [Hr Hv].
    rewrite (Hrow r Hr Ht) in Hv. discriminate.
Qed.

Lemma unresolved_driver_trip_witness :
  In Sample.t3 (filtered_trips Sample.trips Sample.everything)
  /\ forall r,
       In r (filtered_trips_with_drivers
               (filtered_trips Sample.trips Sample.everything)
               Sample.drivers Sample.everything) ->
       TripDriver.trip r <> Sample.t3.
Proof.
  assert (Hin : In Sample.t3 Sample.trips)
    by (right; right; left; reflexivity).
  assert (Hmask : trip_mask Sample.everything Sample.t3 = true)
    by reflexivity.
  assert (Hno : forall d, In d Sample.drivers ->
                  Driver.driver_id d <> Trip.driver_id Sample.t3).
  { intros d [<- | [<- | [<- | []]]]; discriminate. }
  destruct (unresolved_driver_trip Sample.drivers Sample.trips
              Sample.everything Sample.t3 Hin Hmask Hno)
    as (H1 & _ & _ & _ & H5).
  split; [exact H1 | exact H5].
Defined.

(** ** Group-by *)

#[export] Instance LawfulKey_Z : LawfulKey Z.
Proof. constructor. intros a b. apply Z.eqb_eq. Qed.

#[export] Instance LawfulKey_string : LawfulKey string.
Proof. constructor. intros a b. apply String.eqb_eq. Qed.

Lemma in_dropna {A : Type} (a : A) (col : list (option A)) :
  In a (dropna col) <-> In (Some a) col.
Proof.
  unfold dropna. rewrite in_flat_map. split.
  - intros [c [Hc Ha]]. destruct c as [a' |]; simpl in Ha.
    + destruct Ha as [<- | []]. exact Hc.
    + contradiction.
  - intros Hin. exists (Some a). split; [exact Hin | left; reflexivity].
Qed.

Section GroupByFacts.
Context {K : Type} `{LawfulKey K}.

Lemma mem_In (k : K) (l : list K) : mem k l = true <-> In k l.
Proof.
  unfold mem. rewrite existsb_exists. split.
  - intros [x [Hx E]]. apply key_eqb_eq in E. subst x. exact Hx.
  - intros Hin. exists k. split; [exact Hin | apply key_eqb_eq; reflexivity].
Qed.

Lemma in_unique_from (k : K) (seen l : list K) :
  In k (unique_from seen l) <-> In k l /\ ~ In k seen.
Proof.
  revert seen. induction l as [| x l IH]; intros seen; simpl.
  - tauto.
  - destruct (mem x seen) eqn:E.
    + apply mem_In in E. rewrite IH. split.
      * intros [Hl Hs]. split; [right; exact Hl | exact Hs].
      * intros [[-> | Hl] Hs]; [contradiction | split; assumption].
    + assert (Hx : ~ In x seen).
      { intros Hx. apply mem_In in Hx. congruence. }
      simpl. rewrite IH. simpl. split.
      * intros [<- | [Hl Hs]].
        -- split; [left; reflexivity | exact Hx].
        -- split; [right; exact Hl | tauto].
      * intros [[-> | Hl] Hs].
        -- left; reflexivity.
        -- destruct (key_eqb x k) eqn:Exk.
           ++ apply key_eqb_eq in Exk. left. exact Exk.
           ++ right. split; [exact Hl |].
              intros [-> | Hk]; [| contradiction].
              assert (key_eqb k k = true) by (apply key_eqb_eq; reflexivity).
              congruence.
Qed.

Lemma NoDup_unique_from (seen l : list K) : NoDup (unique_from seen l).
Proof.
  revert seen. induction l as [| x l IH]; intros seen; simpl.
  - constructor.
  - destruct (mem x seen) eqn:E.
    + apply IH.
    + constructor; [| apply IH].
      rewrite in_unique_from. intros [_ Hn]. apply Hn. left. reflexivity.
Qed.

Lemma in_unique (k : K) (l : list K) : In k (unique l) <-> In k l.
Proof. unfold unique. rewrite in_unique_from. simpl. tauto. Qed.

Lemma insert_key_perm (k : K) (l : list K) :
  Permutation (insert_key k l) (k :: l).
Proof.
  induction l as [| x l IH]; simpl.
  - apply Permutation_refl.
  - destruct (key_leb k x).
    + apply Permutation_refl.
    + eapply perm_trans; [apply perm_skip; exact IH | apply perm_swap].
Qed.

Lemma sort_keys_perm (l : list K) : Permutation (sort_keys l) l.
Proof.
  induction l as [| x l IH]; simpl.
  - constructor.
  - eapply perm_trans; [apply insert_key_perm | apply perm_skip; exact IH].
Qed.

(** The group keys are the distinct non-empty values of the key column. *)
Lemma groupby_keys {R : Type} (key : R -> option K) (df : list R) (k : K) :
  In k (map fst (groupby key df)) <-> exists r, In r df /\ key r = Some k.
Proof.
  unfold groupby. rewrite map_map. simpl. rewrite map_id.
  split.
  - intros Hin.
    apply (Permutation_in _ (sort_keys_perm _)) in Hin.
    apply in_unique, in_dropna, in_map_iff in Hin.
    destruct Hin as [r [Hr Hin]]. exists r. split; assumption.
  - intros [r [Hin Hr]].
    apply (Permutation_in _ (Permutation_sym (sort_keys_perm _))).
    apply in_unique, in_dropna, in_map_iff. exists r. split; assumption.
Qed.

Lemma groupby_keys_NoDup {R : Type} (key : R -> option K) (df : list R) :
  NoDup (map fst (groupby key df)).
Proof.
  unfold groupby. rewrite map_map. simpl. rewrite map_id.
  apply (Permutation_NoDup (Permutation_sym (sort_keys_perm _))).
  apply NoDup_unique_from.
Qed.

Lemma has_key_true {R : Type} (key : R -> option K) (k : K) (r : R) :
  has_key key k r = true <-> key r = Some k.
Proof.
  unfold has_key. destruct (key r) as [k' |].
  - rewrite key_eqb_eq. split; congruence.
  - split; discriminate.
Qed.

(** A group holds exactly the rows with its key, and is never empty. *)
Lemma groupby_group {R : Type} (key : R -> option K) (df : list R)
  (k : K) (g : list R) :
  In (k, g) (groupby key df) ->
  g = filter (has_key key k) df /\ g <> [].
Proof.
  intros Hin.
  assert (Hk : In k (map fst (groupby key df))).
  { apply in_map_iff. exists (k, g). split; [reflexivity | exact Hin]. }
  apply groupby_keys in Hk. destruct Hk as [r [Hr Hkr]].
  unfold groupby in Hin. apply in_map_iff in Hin.
  destruct Hin as [k' [E _]]. injection E as -> <-.
  split; [reflexivity |].
  intros Hnil.
  assert (Hin : In r (filter (has_key key k) df)).
  { apply filter_In. split; [exact Hr | apply has_key_true; exact Hkr]. }
  rewrite Hnil in Hin. contradiction.
Qed.

Lemma agg_rows {R V : Type} (f : list R -> V) (key : R -> option K)
  (df : list R) (k : K) (v : V) :
  In (k, v) (agg f (groupby key df)) <->
  In k (map fst (groupby key df)) /\ v = f (filter (has_key key k) df).
Proof.
  unfold agg. rewrite in_map_iff. split.
  - intros [[k' g] [E Hin]]. simpl in E. injection E as -> <-.
    split.
    + apply in_map_iff. exists (k, g). split; [reflexivity | exact Hin].
    + f_equal. apply (groupby_group _ _ _ _ Hin).
  - intros [Hk ->]. apply in_map_iff in Hk.
    destruct Hk as [[k' g] [E Hin]]. simpl in E. subst k'.
    exists (k, g). split; [| exact Hin]. simpl.
    f_equal. f_equal. apply (groupby_group _ _ _ _ Hin).
Qed.

Lemma agg_keys {R V : Type} (f : list R -> V) (g : list (K * list R)) :
  map fst (agg f g) = map fst g.
Proof. unfold agg. rewrite map_map. reflexivity. Qed.

Lemma lookup_None {V : Type} (k : K) (s : list (K * V)) :
  ~ In k (map fst s) -> lookup k s = None.
Proof.
  induction s as [| [k' v] s IH]; simpl; intros Hn.
  - reflexivity.
  - destruct (key_eqb k' k) eqn:E.
    + apply key_eqb_eq in E. exfalso. apply Hn. left. exact E.
    + apply IH. intros Hin. apply Hn. right. exact Hin.
Qed.

Lemma lookup_Some {V : Type} (k : K) (s : list (K * V)) :
  In k (map fst s) -> exists v, lookup k s = Some v /\ In (k, v) s.
Proof.
  induction s as [| [k' v] s IH]; simpl; intros Hin.
  - contradiction.
  - destruct (key_eqb k' k) eqn:E.
    + apply key_eqb_eq in E. subst k'. exists v.
      split; [reflexivity | left; reflexivity].
    + destruct Hin as [-> | Hin].
      * assert (key_eqb k k = true) by (apply key_eqb_eq; reflexivity).
        congruence.
      * destruct (IH Hin) as [v' [Hl Hv]]. exists v'.
        split; [exact Hl | right; exact Hv].
Qed.

(** Looking a key up in an aggregated group-by. *)
Lemma lookup_agg {R V : Type} (f : list R -> V) (key : R -> option K)
  (df : list R) (k : K) :
  lookup k (agg f (groupby key df)) =
  match filter (has_key key k) df with
  | [] => None
  | g => Some (f g)
  end.
Proof.
  destruct (filter (has_key key k) df) as [| r g] eqn:Hf.
  - apply lookup_None. rewrite agg_keys, groupby_keys.
    intros [r [Hr Hk]].
    assert (Hin : In r (filter (has_key key k) df)).
    { apply filter_In. split; [exact Hr | apply has_key_true; exact Hk]. }
    rewrite Hf in Hin. contradiction.
  - assert (Hk : In k (map fst (agg f (groupby key df)))).
    { rewrite agg_keys, groupby_keys. exists r.
      assert (Hin : In r (filter (has_key key k) df))
        by (rewrite Hf; left; reflexivity).
      apply filter_In in Hin. destruct Hin as [Hr Hk].
      split; [exact Hr | apply has_key_true; exact Hk]. }
    destruct (lookup_Some _ _ Hk) as [v [Hl Hv]].
    rewrite Hl. apply agg_rows in Hv. destruct Hv as [_ ->].
    rewrite Hf. reflexivity.
Qed.

End GroupByFacts.

(** ** Completion rate *)

Lemma len_nonneg {A : Type} (l : list A) : 0 <= len l.
Proof. unfold len. lia. Qed.

Lemma len_filter_le {A : Type} (f : A -> bool) (l : list A) :
  len (filter f l) <= len l.
Proof.
  unfold len. apply inj_le. induction l as [| a l IH]; simpl.
  - lia.
  - destruct (f a); simpl; lia.
Qed.

Lemma len_pos {A : Type} (l : list A) : l <> [] -> 0 < len l.
Proof. destruct l; [congruence | unfold len; simpl; lia]. Qed.

(** On a trip table with at least one row the completion rate is computed
    and lies between 0 and 100. *)
Lemma completion_rate_bounds (ft : list Trip.t) :
  ft <> [] ->
  exists q, completion_rate ft = inr q /\ (0 <= q)%Q /\ (q <= 100)%Q.
Proof.
  intros Hne. pose proof (len_pos ft Hne) as Hpos.
  pose proof (len_filter_le completed ft) as Hle.
  pose proof (len_nonneg (filter completed ft)) as Hc.
  unfold completion_rate, truediv.
  destruct (len ft =? 0) eqn:E; [apply Z.eqb_eq in E; lia |].
  simpl. eexists. split; [reflexivity |].
  set (c := len (filter completed ft)) in *. set (n := len ft) in *.
  assert (Hn : (0 < inject_Z n)%Q) by (rewrite (Zlt_Qlt 0 n) in Hpos; exact Hpos).
  split.
  - apply Qmult_le_0_compat; [| discriminate].
    apply Qle_shift_div_l; [exact Hn |].
    rewrite Qmult_0_l. rewrite (Zle_Qle 0 c) in Hc. exact Hc.
  - setoid_replace 100%Q with (1 * 100)%Q by reflexivity.
    apply Qmult_le_compat_r; [| discriminate].
    apply Qle_shift_div_r; [exact Hn |].
    rewrite Qmult_1_l. rewrite <- Zle_Qle. exact Hle.
Qed.

Lemma completion_rate_bounds_witness :
  exists q,
    completion_rate (filtered_trips Sample.trips Sample.january_manhattan)
    = inr q /\ (0 <= q)%Q /\ (q <= 100)%Q.
Proof.
  apply (completion_rate_bounds
           (filtered_trips Sample.trips Sample.january_manhattan)).
  discriminate.
Defined.

(** C1.  With no pickup borough selected [filtered_trips] is empty;
    line 143 then divides by [len(filtered_trips) = 0], the division
    raises [ZeroDivisionError], and the run ends there: no completion
    rate, undefined or otherwise, is produced.  The average fare of the
    same empty table is the empty (NaN) value. *)
Theorem completion_rate_empty_raises :
  filtered_trips Sample.trips Sample.nothing = []
  /\ completion_rate (filtered_trips Sample.trips Sample.nothing)
     = inl ZeroDivisionError
  /\ avg_fare (filtered_trips Sample.trips Sample.nothing) = None
  /\ dashboard Sample.drivers Sample.trips Sample.payments Sample.nothing
     = inl ZeroDivisionError.
Proof. repeat split; reflexivity. Qed.

(** On every empty trip table the completion rate raises. *)
Lemma completion_rate_nil : completion_rate [] = inl ZeroDivisionError.
Proof. reflexivity. Qed.

(** ** Demand tables *)

Lemma dt_hour_range (ts : Timestamp) : 0 <= dt_hour ts < 24.
Proof.
  unfold dt_hour.
  assert (Hd : 0 <= ts mod NS_PER_DAY < NS_PER_DAY)
    by (apply Z.mod_pos_bound; reflexivity).
  split.
  - apply Z.div_pos; [lia | reflexivity].
  - apply Z.div_lt_upper_bound; [reflexivity |].
    change (NS_PER_HOUR * 24) with NS_PER_DAY. lia.
Qed.

(** The loader's [hour] column holds hours of the day. *)
Lemma derive_calendar_hour (r : RawTrip.t) (ts : option Timestamp) (h : Z) :
  Trip.hour (derive_calendar r ts) = Some h -> 0 <= h < 24.
Proof.
  simpl. destruct ts as [t |]; simpl; [| discriminate].
  intros E. injection E as <-. apply dt_hour_range.
Qed.

Lemma derive_calendar_hour_witness :
  0 <= 8 < 24.
Proof.
  apply (derive_calendar_hour
           (RawTrip.mk 101 1 (Some "Manhattan") (Some "Brooklyn") None
              "completed" (Some 20%Q) (Some 3%Q) (Some 30%Q) (Some 1%Q)
              (Some 5%Q))
           (Sample.at_ 19727 8) 8).
  reflexivity.
Defined.

(** C9.  The hourly table has one row per distinct hour that occurs in
    the trip table and no other row: an hour is a key of the table
    exactly when some trip has it, each row carries the number of trips
    of its hour, that number is positive, and no hour appears twice.  An
    hour without trips has no row (the sample has 3 rows, not 24). *)
Theorem hourly_demand_rows (ft : list Trip.t) :
  (forall h, In h (map fst (hourly_demand ft)) <->
             exists t, In t ft /\ Trip.hour t = Some h)
  /\ (forall h n, In (h, n) (hourly_demand ft) ->
                  n = trips_at h ft /\ 0 < n)
  /\ (forall h, trips_at h ft = 0 -> ~ In h (map fst (hourly_demand ft)))
  /\ NoDup (map fst (hourly_demand ft))
  /\ hourly_demand Sample.tue_fri = [(7, 2); (9, 1); (18, 2)].
Proof.
  unfold hourly_demand.
  assert (Hrow : forall h n, In (h, n) (agg len (groupby Trip.hour ft)) ->
                   n = trips_at h ft /\ 0 < n).
  { intros h n Hin. unfold agg in Hin. apply in_map_iff in Hin.
    destruct Hin as [[h' g] [E Hin]]. simpl in E. injection E as -> <-.
    destruct (groupby_group _ _ _ _ Hin) as [Hg Hne].
    split; [unfold trips_at; rewrite Hg; reflexivity | apply len_pos; exact Hne]. }
  split; [| split; [| split; [| split]]].
  - intros h. rewrite agg_keys. apply groupby_keys.
  - exact Hrow.
  - intros h Hz Hin. apply in_map_iff in Hin.
    destruct Hin as [[h' n] [E Hin]]. simpl in E. subst h'.
    destruct (Hrow h n Hin) as [Hn Hpos]. lia.
  - rewrite agg_keys. apply groupby_keys_NoDup.
  - reflexivity.
Qed.

(** C2, as the code has it.  The day-of-week table always has exactly
    seven rows, Monday to Sunday in that order; the row of a day that has
    trips carries their number, and the row of a day without trips
    carries an empty (NaN) count, not zero. *)
Theorem daily_demand_rows (ft : list Trip.t) :
  map fst (daily_demand ft) = day_order
  /\ List.length (daily_demand ft) = 7%nat
  /\ (forall d c, In (d, c) (daily_demand ft) ->
        c = if trips_on d ft =? 0 then None else Some (trips_on d ft)).
Proof.
  unfold daily_demand, reindex. split; [| split].
  - rewrite map_map. simpl. reflexivity.
  - rewrite length_map. reflexivity.
  - intros d c Hin. apply in_map_iff in Hin.
    destruct Hin as [d' [E _]]. injection E as -> <-.
    rewrite lookup_agg. unfold trips_on.
    destruct (filter (has_key Trip.day_of_week d) ft) as [| t g].
    + reflexivity.
    + unfold len at 1. simpl List.length.
      destruct (Z.of_nat (S (List.length g)) =? 0) eqn:E; [| reflexivity].
      apply Z.eqb_eq in E. lia.
Qed.

(** C2, the claim as stated, fails: with three Tuesday trips and two
    Friday trips the Monday row is there, but its count is empty, not 0. *)
Lemma daily_demand_no_zero_rows :
  daily_demand Sample.tue_fri
  = [("Monday", None); ("Tuesday", Some 3); ("Wednesday", None);
     ("Thursday", None); ("Friday", Some 2); ("Saturday", None);
     ("Sunday", None)]
  /\ trips_on "Monday" Sample.tue_fri = 0
  /\ ~ In ("Monday", Some (trips_on "Monday" Sample.tue_fri))
         (daily_demand Sample.tue_fri).
Proof.
  split; [reflexivity | split; [reflexivity |]].
  intros Hin. vm_compute in Hin.
  repeat (destruct Hin as [Hin | Hin]; [discriminate |]).
  exact Hin.
Qed.

(** ** Sums of float columns *)

Lemma total_app (l1 l2 : list Q) : (total (l1 ++ l2) == total l1 + total l2)%Q.
Proof.
  induction l1 as [| q l1 IH]; simpl.
  - rewrite Qplus_0_l. reflexivity.
  - rewrite IH. apply Qplus_assoc.
Qed.

Lemma total_perm (l1 l2 : list Q) :
  Permutation l1 l2 -> (total l1 == total l2)%Q.
Proof.
  induction 1 as [| q l1 l2 _ IH | p q l | l1 l2 l3 _ IH1 _ IH2]; simpl.
  - reflexivity.
  - rewrite IH. reflexivity.
  - rewrite !Qplus_assoc. rewrite (Qplus_comm q p). reflexivity.
  - rewrite IH1. exact IH2.
Qed.

Lemma total_map_ext {A : Type} (f g : A -> Q) (l : list A) :
  (forall a, In a l -> (f a == g a)%Q) ->
  (total (map f l) == total (map g l))%Q.
Proof.
  induction l as [| a l IH]; simpl; intros Hfg.
  - reflexivity.
  - rewrite (Hfg a (or_introl eq_refl)), IH; [reflexivity |].
    intros a' Ha'. apply Hfg. right. exact Ha'.
Qed.

Lemma total_map_zero {A : Type} (f : A -> Q) (l : list A) :
  (forall a, In a l -> (f a == 0)%Q) -> (total (map f l) == 0)%Q.
Proof.
  induction l as [| a l IH]; simpl; intros Hf.
  - reflexivity.
  - rewrite (Hf a (or_introl eq_refl)), IH; [ring |].
    intros a' Ha'. apply Hf. right. exact Ha'.
Qed.

Lemma total_map_plus {A : Type} (f g : A -> Q) (l : list A) :
  (total (map (fun a => f a + g a) l) == total (map f l) + total (map g l))%Q.
Proof.
  induction l as [| a l IH]; simpl.
  - reflexivity.
  - rewrite IH. ring.
Qed.

Lemma sum_cons (c : option Q) (col : list (option Q)) :
  (sum (c :: col) == cell c + sum col)%Q.
Proof.
  unfold sum. destruct c as [q |]; simpl.
  - reflexivity.
  - rewrite Qplus_0_l. reflexivity.
Qed.

Lemma sum_filter_split {R : Type} (col : R -> option Q) (f : R -> bool)
  (df : list R) :
  (sum (map col df)
   == sum (map col (filter f df))
      + sum (map col (filter (fun r => negb (f r)) df)))%Q.
Proof.
  induction df as [| r df IH]; simpl.
  - reflexivity.
  - destruct (f r); simpl; rewrite !sum_cons, IH; ring.
Qed.

Section GroupSums.
Context {K : Type} `{LawfulKey K} {R : Type}.
Variable key : R -> option K.
Variable col : R -> option Q.

(** Exactly one key of a duplicate-free key list selects a given row. *)
Lemma total_one_key (ks : list K) (r : R) (k0 : K) (q : Q) :
  NoDup ks -> In k0 ks -> key r = Some k0 ->
  (total (map (fun k => if has_key key k r then q else 0) ks) == q)%Q.
Proof.
  intros Hnd Hin Hk. induction Hnd as [| k ks Hk' Hnd IH]; simpl.
  - contradiction.
  - destruct Hin as [-> | Hin].
    + assert (E : has_key key k0 r = true) by (apply has_key_true; exact Hk).
      rewrite E.
      rewrite total_map_zero; [ring |].
      intros k Hks. destruct (has_key key k r) eqn:E'; [| reflexivity].
      apply has_key_true in E'. rewrite Hk in E'. injection E' as <-.
      contradiction.
    + destruct (has_key key k r) eqn:E.
      * apply has_key_true in E. rewrite Hk in E. injection E as <-.
        contradiction.
      * rewrite (IH Hin). ring.
Qed.

(** The group sums add up to the sum of the column, when every row has
    a key among the (distinct) group keys. *)
Lemma total_group_sums (ks : list K) (df : list R) :
  NoDup ks ->
  (forall r, In r df -> exists k, key r = Some k /\ In k ks) ->
  (total (map (fun k => sum (map col (filter (has_key key k) df))) ks)
   == sum (map col df))%Q.
Proof.
  intros Hnd. induction df as [| r df IH]; intros Hcov.
  - apply total_map_zero. intros k _. reflexivity.
  - destruct (Hcov r (or_introl eq_refl)) as [k0 [Hk0 Hin0]].
    rewrite (total_map_ext _
               (fun k => (if has_key key k r then cell (col r) else 0)
                         + sum (map col (filter (has_key key k) df)))%Q).
    + rewrite total_map_plus.
      rewrite (total_one_key ks r k0 _ Hnd Hin0 Hk0).
      rewrite IH.
      * simpl map. rewrite sum_cons. reflexivity.
      * intros r' Hr'. apply Hcov. right. exact Hr'.
    + intros k _. simpl filter. destruct (has_key key k r).
      * simpl map. rewrite sum_cons. reflexivity.
      * rewrite Qplus_0_l. reflexivity.
Qed.

Lemma agg_groupby_values {V : Type} (f : list R -> V) (df : list R) :
  map snd (agg f (groupby key df))
  = map (fun k => f (filter (has_key key k) df))
        (map fst (groupby key df)).
Proof.
  unfold agg, groupby. rewrite !map_map. reflexivity.
Qed.

End GroupSums.

Lemma insert_desc_perm {R : Type} (col : R -> Q) (r : R) (l : list R) :
  Permutation (insert_desc col r l) (r :: l).
Proof.
  induction l as [| x l IH]; simpl.
  - apply Permutation_refl.
  - destruct (Qle_bool (col x) (col r)).
    + apply Permutation_refl.
    + eapply perm_trans; [apply perm_skip; exact IH | apply perm_swap].
Qed.

Lemma sort_desc_perm {R : Type} (col : R -> Q) (df : list R) :
  Permutation (sort_desc col df) df.
Proof.
  induction df as [| r df IH]; simpl.
  - constructor.
  - eapply perm_trans; [apply insert_desc_perm | apply perm_skip; exact IH].
Qed.

(** ** Revenue by payment method *)

(** C3, as the code has it.  The per-method table sums [amount_charged]
    over every payment of the filtered set, successful or not.  Its grand
    total is therefore the sum of the whole column, which is the
    total-revenue KPI plus the amounts charged on the payments that are
    not successful. *)
Theorem payment_revenue_total (fp : list Payment.t) :
  (total (map snd (payment_revenue fp))
   == sum (map Payment.amount_charged fp))%Q
  /\ (total (map snd (payment_revenue fp))
      == total_revenue fp
         + sum (map Payment.amount_charged
                  (filter (fun p => negb (successful p)) fp)))%Q.
Proof.
  assert (Hall : (total (map snd (payment_revenue fp))
                  == sum (map Payment.amount_charged fp))%Q).
  { unfold payment_revenue.
    rewrite (total_perm _ _ (Permutation_map snd (sort_desc_perm snd _))).
    rewrite agg_groupby_values.
    apply total_group_sums.
    - apply groupby_keys_NoDup.
    - intros p Hp. exists (Payment.payment_method p).
      split; [reflexivity |].
      apply groupby_keys. exists p. split; [exact Hp | reflexivity]. }
  split; [exact Hall |].
  rewrite Hall. unfold total_revenue. apply sum_filter_split.
Qed.

(** C3, the claim as stated, fails: a failed card payment of 10 is in the
    per-method table and not in the total revenue. *)
Lemma payment_revenue_exceeds_total_revenue :
  payment_revenue Sample.payments = [("card", 30%Q); ("cash", 30%Q)]
  /\ total_revenue Sample.payments = 50%Q
  /\ ~ (total (map snd (payment_revenue Sample.payments))
        == total_revenue Sample.payments)%Q.
Proof.
  split; [reflexivity | split; [reflexivity |]].
  intros E. vm_compute in E. discriminate.
Qed.

(** ** Per-driver metrics *)

Lemma merge_metrics_rows (drivers : list Driver.t) (id : Z)
  (g : list TripDriver.t) :
  merge_metrics drivers (id, g) <> []
  /\ forall r, In r (merge_metrics drivers (id, g)) ->
               DriverMetrics.driver_id r = id.
Proof.
  unfold merge_metrics.
  destruct (filter (fun d => Driver.driver_id d =? id) drivers) as [| d ds].
  - split; [discriminate |]. intros r [<- | []]. reflexivity.
  - split; [discriminate |]. intros r Hr. apply in_map_iff in Hr.
    destruct Hr as [d' [<- _]]. reflexivity.
Qed.

(** The drivers of [driver_metrics] are the group keys. *)
Lemma driver_metrics_ids (drivers : list Driver.t)
  (groups : list (Z * list TripDriver.t)) (id : Z) :
  In id (map DriverMetrics.driver_id (flat_map (merge_metrics drivers) groups))
  <-> In id (map fst groups).
Proof.
  rewrite !in_map_iff. split.
  - intros [r [<- Hr]]. apply in_flat_map in Hr.
    destruct Hr as [[k g] [Hkg Hr]]. exists (k, g).
    split; [| exact Hkg]. simpl. symmetry.
    apply (proj2 (merge_metrics_rows drivers k g)). exact Hr.
  - intros [[k g] [<- Hkg]]. simpl.
    destruct (merge_metrics_rows drivers k g) as [Hne Hid].
    destruct (merge_metrics drivers (k, g)) as [| r rs] eqn:E;
      [congruence |].
    exists r. split; [apply Hid; left; reflexivity |].
    apply in_flat_map. exists (k, g). split; [exact Hkg |].
    rewrite E. left. reflexivity.
Qed.

Lemma firstn_incl {A : Type} (n : nat) (l : list A) : incl (firstn n l) l.
Proof.
  revert n. induction l as [| a l IH]; intros [| n]; simpl;
    intros x Hx; try contradiction.
  destruct Hx as [<- | Hx]; [left; reflexivity | right; exact (IH n x Hx)].
Qed.

(** C10.  A driver has a row in [driver_metrics] exactly when some row of
    the vehicle-filtered trip table is a completed trip of that driver;
    the top-earners and efficiency views only hold rows of
    [driver_metrics].  In the sample, driver 2 is in [filtered_drivers]
    (one cancelled trip) and in no per-driver output. *)
Theorem driver_metrics_completed_only
  (ftd : list TripDriver.t) (drivers : list Driver.t) :
  let dm := driver_metrics ftd drivers in
  (forall id,
      In id (map DriverMetrics.driver_id dm) <->
      exists r, In r ftd /\ completed (TripDriver.trip r) = true
                /\ Trip.driver_id (TripDriver.trip r) = id)
  /\ incl (top_earners dm) dm
  /\ incl (efficiency_data dm) dm
  /\ (let s := run_filters Sample.drivers Sample.trips Sample.payments
                 Sample.everything in
      map Driver.driver_id (Store.filtered_drivers s) = [1; 2]
      /\ map DriverMetrics.driver_id
           (driver_metrics (Store.filtered_trips_with_drivers s)
              (Store.drivers s)) = [1]).
Proof.
  intros dm. split; [| split; [| split]].
  - intros id. unfold dm, driver_metrics.
    rewrite driver_metrics_ids, groupby_keys. split.
    + intros [r [Hr Hk]]. apply filter_In in Hr. destruct Hr as [Hr Hc].
      exists r. injection Hk as Hk. repeat split; assumption.
    + intros [r (Hr & Hc & Hid)]. exists r. split.
      * apply filter_In. split; assumption.
      * rewrite Hid. reflexivity.
  - unfold top_earners, nlargest. intros r Hr.
    apply firstn_incl in Hr.
    exact (Permutation_in _ (sort_desc_perm _ _) Hr).
  - unfold efficiency_data. intros r Hr. apply filter_In in Hr. tauto.
  - split; reflexivity.
Qed.

(** ** Top earners *)

Lemma insert_key_sorted (k : Z) (l : list Z) :
  StronglySorted Z.le l -> StronglySorted Z.le (insert_key k l).
Proof.
  induction 1 as [| x l Hs IH Hx]; simpl.
  - repeat constructor.
  - destruct (k <=? x) eqn:E.
    + apply Z.leb_le in E. constructor; [constructor; assumption |].
      constructor; [exact E |].
      rewrite Forall_forall in *. intros y Hy. specialize (Hx y Hy). lia.
    + apply Z.leb_gt in E. constructor; [exact IH |].
      rewrite Forall_forall in *. intros y Hy.
      apply (Permutation_in _ (insert_key_perm k l)) in Hy.
      destruct Hy as [<- | Hy]; [lia | exact (Hx y Hy)].
Qed.

Lemma sort_keys_sorted (l : list Z) : StronglySorted Z.le (sort_keys l).
Proof.
  induction l as [| k l IH]; simpl.
  - constructor.
  - apply insert_key_sorted. exact IH.
Qed.

Lemma StronglySorted_app {A : Type} (R : A -> A -> Prop) (l1 l2 : list A) :
  StronglySorted R l1 -> StronglySorted R l2 ->
  (forall a b, In a l1 -> In b l2 -> R a b) ->
  StronglySorted R (l1 ++ l2).
Proof.
  induction 1 as [| a l1 Hs IH Ha]; simpl; intros H2 Hab.
  - exact H2.
  - constructor.
    + apply IH; [exact H2 |]. intros x y Hx Hy. apply Hab; [right |]; assumption.
    + apply Forall_app. split; [exact Ha |].
      apply Forall_forall. intros y Hy. apply Hab; [left; reflexivity | exact Hy].
Qed.

Lemma StronglySorted_firstn {A : Type} (R : A -> A -> Prop) (n : nat)
  (l : list A) :
  StronglySorted R l -> StronglySorted R (firstn n l).
Proof.
  intros Hs. revert n. induction Hs as [| a l Hs IH Ha]; intros [| n]; simpl;
    try constructor.
  - apply IH.
  - rewrite Forall_forall in *. intros y Hy. apply Ha.
    exact (firstn_incl n l y Hy).
Qed.

Lemma flat_map_sorted_by_id
  (f : Z * list TripDriver.t -> list DriverMetrics.t)
  (groups : list (Z * list TripDriver.t)) :
  (forall kg r, In r (f kg) -> DriverMetrics.driver_id r = fst kg) ->
  StronglySorted Z.le (map fst groups) ->
  StronglySorted id_le (flat_map f groups).
Proof.
  intros Hid. induction groups as [| kg gs IH]; simpl; intros Hs.
  - constructor.
  - inversion Hs as [| ? ? Hs' Hk]; subst.
    apply StronglySorted_app.
    + pose proof (Hid kg) as Hkg. clear - Hkg.
      induction (f kg) as [| r rs IHr].
      * constructor.
      * constructor.
        -- apply IHr. intros r' Hr'. apply Hkg. right. exact Hr'.
        -- apply Forall_forall. intros r' Hr'. unfold id_le.
           rewrite (Hkg r (or_introl eq_refl)), (Hkg r' (or_intror Hr')). lia.
    + apply IH. exact Hs'.
    + intros a b Ha Hb. unfold id_le. rewrite (Hid kg a Ha).
      apply in_flat_map in Hb. destruct Hb as [kg' [Hkg' Hb]].
      rewrite (Hid kg' b Hb).
      rewrite Forall_forall in Hk. apply Hk. apply in_map. exact Hkg'.
Qed.

(** [driver_metrics] comes out of the group-by in ascending [driver_id]
    order, and the merge keeps that order. *)
Lemma driver_metrics_sorted (ftd : list TripDriver.t) (drivers : list Driver.t) :
  StronglySorted id_le (driver_metrics ftd drivers).
Proof.
  unfold driver_metrics. apply flat_map_sorted_by_id.
  - intros [k g] r Hr. exact (proj2 (merge_metrics_rows drivers k g) r Hr).
  - unfold groupby. rewrite map_map. simpl. rewrite map_id.
    apply sort_keys_sorted.
Qed.

Lemma ranks_before_of_le (a b : DriverMetrics.t) :
  (DriverMetrics.total_earnings b <= DriverMetrics.total_earnings a)%Q ->
  id_le a b -> ranks_before a b.
Proof.
  intros Hle Hid. unfold ranks_before.
  destruct (Qlt_le_dec (DriverMetrics.total_earnings b)
              (DriverMetrics.total_earnings a)) as [Hlt | Hge].
  - left. exact Hlt.
  - right. split; [apply Qle_antisym; assumption | exact Hid].
Qed.

Lemma ranks_before_le (a b : DriverMetrics.t) :
  ranks_before a b ->
  (DriverMetrics.total_earnings b <= DriverMetrics.total_earnings a)%Q.
Proof.
  intros [Hlt | [Heq _]].
  - apply Qlt_le_weak. exact Hlt.
  - rewrite Heq. apply Qle_refl.
Qed.

(** Inserting a row whose [driver_id] is below all those already ranked
    keeps the ranking. *)
Lemma insert_desc_ranked (r : DriverMetrics.t) (l : list DriverMetrics.t) :
  StronglySorted ranks_before l ->
  Forall (id_le r) l ->
  StronglySorted ranks_before (insert_desc DriverMetrics.total_earnings r l).
Proof.
  induction 1 as [| x l Hs IH Hx]; simpl; intros Hid.
  - repeat constructor.
  - inversion Hid as [| ? ? Hrx Hrl]; subst.
    destruct (Qle_bool (DriverMetrics.total_earnings x)
                (DriverMetrics.total_earnings r)) eqn:E.
    + apply Qle_bool_iff in E.
      constructor; [constructor; assumption |].
      constructor; [apply ranks_before_of_le; assumption |].
      rewrite Forall_forall in *. intros y Hy.
      apply ranks_before_of_le; [| exact (Hrl y Hy)].
      eapply Qle_trans; [apply ranks_before_le; exact (Hx y Hy) | exact E].
    + assert (Hlt : (DriverMetrics.total_earnings r
                     < DriverMetrics.total_earnings x)%Q).
      { apply Qnot_le_lt. intros Hle. apply Qle_bool_iff in Hle. congruence. }
      constructor; [apply IH; exact Hrl |].
      rewrite Forall_forall in *. intros y Hy.
      apply (Permutation_in _ (insert_desc_perm _ r l)) in Hy.
      destruct Hy as [<- | Hy]; [left; exact Hlt | exact (Hx y Hy)].
Qed.

Lemma sort_desc_ranked (l : list DriverMetrics.t) :
  StronglySorted id_le l ->
  StronglySorted ranks_before (sort_desc DriverMetrics.total_earnings l).
Proof.
  induction 1 as [| r l Hs IH Hr]; simpl.
  - constructor.
  - apply insert_desc_ranked; [exact IH |].
    rewrite Forall_forall in *. intros y Hy. apply Hr.
    exact (Permutation_in _ (sort_desc_perm _ l) Hy).
Qed.

(** C5.  [top_earners] is the first 15 rows (all of them when there are
    fewer) of the ranking of [driver_metrics] in which every row stands
    before all rows of lower earnings and, among rows of equal earnings,
    before all rows of larger [driver_id].  In the sample, drivers 1 and
    2 tie at 20 behind driver 3 and come out in the order 3, 1, 2. *)
Theorem top_earners_ranking
  (ftd : list TripDriver.t) (drivers : list Driver.t) :
  let dm := driver_metrics ftd drivers in
  let ranking := sort_desc DriverMetrics.total_earnings dm in
  Permutation ranking dm
  /\ StronglySorted ranks_before ranking
  /\ top_earners dm = firstn 15 ranking
  /\ StronglySorted ranks_before (top_earners dm)
  /\ List.length (top_earners dm) = Nat.min 15 (List.length dm)
  /\ map (fun r => (DriverMetrics.driver_id r, DriverMetrics.total_earnings r))
       (top_earners
          (driver_metrics
             (filtered_trips_with_drivers Sample.tied Sample.drivers
                Sample.everything)
             Sample.drivers))
     = [(3, 30%Q); (1, 20%Q); (2, 20%Q)].
Proof.
  intros dm ranking.
  assert (Hr : StronglySorted ranks_before ranking).
  { apply sort_desc_ranked. apply driver_metrics_sorted. }
  split; [apply sort_desc_perm | split; [exact Hr | split; [reflexivity |]]].
  split; [apply StronglySorted_firstn; exact Hr | split].
  - unfold top_earners, nlargest. rewrite length_firstn.
    rewrite (Permutation_length
               (sort_desc_perm DriverMetrics.total_earnings dm)).
    reflexivity.
  - reflexivity.
Qed.

(** ** What the metrics run writes *)

Lemma add_month_year_other_columns (ft : list Trip.t) :
  map (Trip.set_month_year None) (add_month_year ft)
  = map (Trip.set_month_year None) ft.
Proof.
  unfold add_month_year. rewrite map_map. apply map_ext.
  intros t. reflexivity.
Qed.

Lemma run_metrics_store (s s' : Store.t) (out : Outputs) :
  run_metrics s = inr (s', out) ->
  s' = Store.set_filtered_trips (add_month_year (Store.filtered_trips s)) s
  /\ o_tab4 out = tab4 s'.
Proof.
  unfold run_metrics. intros Hrun.
  apply bind_inr in Hrun. destruct Hrun as [k [_ Hrun]].
  unfold tab3 in Hrun.
  apply bind_inr in Hrun. destruct Hrun as [i [_ Hrun]].
  injection Hrun as <- <-. split; reflexivity.
Qed.

Lemma truediv_inr (a b : Z) :
  b <> 0 -> truediv a b = inr (inject_Z a / inject_Z b)%Q.
Proof.
  intros Hb. unfold truediv. destruct (b =? 0) eqn:E.
  - apply Z.eqb_eq in E. contradiction.
  - reflexivity.
Qed.

Lemma len_add_month_year (ft : list Trip.t) : len (add_month_year ft) = len ft.
Proof. unfold len, add_month_year. rewrite length_map. reflexivity. Qed.

(** The metrics run goes through whenever the filtered trip and payment
    tables both have rows. *)
Lemma run_metrics_returns (s : Store.t) :
  Store.filtered_trips s <> [] -> Store.filtered_payments s <> [] ->
  exists s' out, run_metrics s = inr (s', out).
Proof.
  intros Hft Hfp.
  pose proof (len_pos _ Hft) as Ht. pose proof (len_pos _ Hfp) as Hp.
  unfold run_metrics, kpi_row, insights, completion_rate,
    payment_success_rate, tab3.
  rewrite truediv_inr by lia. simpl bind.
  cbn [Store.filtered_trips Store.filtered_payments Store.set_filtered_trips].
  rewrite truediv_inr by (rewrite len_add_month_year; lia). simpl bind.
  rewrite truediv_inr by lia. simpl bind.
  eexists. eexists. reflexivity.
Qed.

Lemma run_metrics_returns_witness :
  exists s' out,
    run_metrics (run_filters Sample.drivers Sample.trips Sample.payments
                   Sample.everything) = inr (s', out).
Proof.
  apply (run_metrics_returns
           (run_filters Sample.drivers Sample.trips Sample.payments
              Sample.everything)); discriminate.
Defined.

(** C7, as the code has it.  After the filters and all the metrics have
    run, the three loaded tables, [filtered_trips_with_drivers],
    [filtered_drivers] and [filtered_payments] are what they were.
    [filtered_trips] is not: the monthly-revenue step wrote the column
    [month_year] into it.  Its rows, their order and every other column
    are what they were, and the demand tables are computed from the frame
    with the new column. *)
Theorem metrics_write_only_month_year
  (drivers : list Driver.t) (trips : list Trip.t) (payments : list Payment.t)
  (sel : Selection) (s' : Store.t) (out : Outputs) :
  dashboard drivers trips payments sel = inr (s', out) ->
  let ft := filtered_trips trips sel in
  Store.drivers s' = drivers
  /\ Store.trips s' = trips
  /\ Store.payments s' = payments
  /\ Store.filtered_trips_with_drivers s'
     = filtered_trips_with_drivers ft drivers sel
  /\ Store.filtered_drivers s' = filtered_drivers drivers ft
  /\ Store.filtered_payments s' = filtered_payments payments ft
  /\ Store.filtered_trips s' = add_month_year ft
  /\ map (Trip.set_month_year None) (Store.filtered_trips s')
     = map (Trip.set_month_year None) ft
  /\ o_tab4 out = tab4 s'.
Proof.
  intros Hrun. cbv zeta. unfold dashboard in Hrun.
  apply run_metrics_store in Hrun. destruct Hrun as [-> Ht4].
  cbn. repeat split; try reflexivity.
  - apply add_month_year_other_columns.
  - exact Ht4.
Qed.

Lemma metrics_write_only_month_year_witness :
  exists s' out,
    dashboard Sample.drivers Sample.trips Sample.payments Sample.everything
    = inr (s', out)
    /\ Store.trips s' = Sample.trips
    /\ Store.filtered_trips s'
       = add_month_year (filtered_trips Sample.trips Sample.everything).
Proof.
  destruct (dashboard Sample.drivers Sample.trips Sample.payments
              Sample.everything) as [e | [s' out]] eqn:E.
  - vm_compute in E. discriminate E.
  - exists s', out. split; [reflexivity |].
    pose proof (metrics_write_only_month_year Sample.drivers Sample.trips
                  Sample.payments Sample.everything s' out E) as H.
    cbv zeta in H. destruct H as (_ & Ht & _ & _ & _ & _ & Hft & _).
    split; [exact Ht | exact Hft].
Defined.

(** C7, the claim as stated, fails: on the sample the run completes and
    leaves a [filtered_trips] that differs from the filter's output, the
    [month_year] cells being filled in. *)
Lemma metrics_change_filtered_trips :
  exists s' out,
    dashboard Sample.drivers Sample.trips Sample.payments Sample.everything
    = inr (s', out)
    /\ map Trip.month_year (filtered_trips Sample.trips Sample.everything)
       = [None; None; None]
    /\ map Trip.month_year (Store.filtered_trips s')
       = [Some "2024-01"; Some "2024-01"; Some "2024-02"]
    /\ Store.filtered_trips s'
       <> filtered_trips Sample.trips Sample.everything.
Proof.
  destruct (run_metrics_returns
              (run_filters Sample.drivers Sample.trips Sample.payments
                 Sample.everything)) as [s' [out E]]; try discriminate.
  exists s', out. split; [exact E |].
  apply run_metrics_store in E. destruct E as [-> _].
  split; [reflexivity | split; [reflexivity |]].
  intros Heq. apply (f_equal (map Trip.month_year)) in Heq.
  vm_compute in Heq. discriminate Heq.
Qed.

(** ** The end-to-end scenario *)

(** Three trips, pickups in Manhattan during January 2024: the filter
    keeps the first two, half of them are completed, and the one
    completed fare is 20. *)
Example january_manhattan_scenario :
  filtered_trips Sample.trips Sample.january_manhattan
  = [Sample.t1; Sample.t2]
  /\ (exists q,
        completion_rate (filtered_trips Sample.trips Sample.january_manhattan)
        = inr q /\ (q == 50)%Q)
  /\ avg_fare (filtered_trips Sample.trips Sample.january_manhattan)
     = Some 20%Q.
Proof.
  split; [reflexivity | split; [| reflexivity]].
  eexists. split; [reflexivity | reflexivity].
Qed.

(** * Further properties of the pipeline *)

(** ** Loader: when it succeeds and how it fails *)


Lemma mapM_fails {A B : Type} (f : A -> Result B) (l : list A) (a : A)
  (P : Exception -> Prop) :
  (forall a' e, f a' = inl e -> P e) ->
  In a l -> (exists e, f a = inl e) ->
  exists e, mapM f l = inl e /\ P e.
Proof.
  intros HP. induction l as [| x l IH]; simpl; intros Hin Hf.
  - contradiction.
  - destruct (f x) as [e | b] eqn:Hx.
    + exists e. split; [reflexivity | exact (HP x e Hx)].
    + destruct Hin as [-> | Hin].
      * destruct Hf as [e He]. congruence.
      * destruct (IH Hin Hf) as [e [He HPe]]. exists e.
        rewrite He. split; [reflexivity | exact HPe].
Qed.

Lemma getitem_present {R : Type} (df : Frame R) (col : string) :
  In col (columns df) -> getitem df col = inr tt.
Proof.
  intros Hin. unfold getitem.
  destruct (existsb (String.eqb col) (columns df)) eqn:E; [reflexivity |].
  assert (Ht : existsb (String.eqb col) (columns df) = true).
  { apply existsb_exists. exists col. split; [exact Hin |].
    apply String.eqb_refl. }
  congruence.
Qed.


Lemma to_datetime_error (parse : string -> option Timestamp)
  (cell : option string) (e : Exception) :
  to_datetime parse cell = inl e -> exists s, e = ValueError s.
Proof.
  unfold to_datetime. destruct cell as [s |]; [| discriminate].
  destruct (parse s); [discriminate |].
  intros E. injection E as <-. exists s. reflexivity.
Qed.



(** One trip timestamp that does not parse aborts the whole load: no
    table is returned, not even the drivers that were read in full, and
    the message is the generic "Error loading data: ..." one. *)
Theorem load_data_unparseable_trip
  (fd : Frame Driver.t) (ft : Frame RawTrip.t) (fp : Frame RawPayment.t)
  (parse : string -> option Timestamp) (r : RawTrip.t) (s : string) :
  In "trip_datetime" (columns ft) ->
  In r (rows ft) -> RawTrip.trip_datetime r = Some s -> parse s = None ->
  exists detail,
    load_data (inr fd) (inr ft) (inr fp) parse
    = mkLoaded None None None
        (Some ("Error loading data: " ++ detail)%string).
Proof.
  intros Hc Hr Hs Hp.
  destruct (mapM_fails (preprocess_trip parse) (rows ft) r
              (fun e => exists bad, e = ValueError bad))
    as [e [He [bad ->]]].
  - intros r' e. unfold preprocess_trip. intros E.
    destruct (to_datetime parse (RawTrip.trip_datetime r')) as [e' | ts] eqn:Ed;
      simpl in E; [| discriminate].
    injection E as <-. exact (to_datetime_error _ _ _ Ed).
  - exact Hr.
  - unfold preprocess_trip, to_datetime. rewrite Hs, Hp. eexists. reflexivity.
  - exists bad.
    unfold load_data, load_data_body. simpl bind.
    rewrite (getitem_present ft _ Hc). simpl bind. rewrite He. reflexivity.
Qed.

Lemma load_data_unparseable_trip_witness :
  exists detail,
    load_data
      (inr (mkFrame ["driver_id"] Sample.drivers))
      (inr (mkFrame ["trip_datetime"]
              [RawTrip.mk 1 1 None None (Some "yesterday") "completed"
                 None None None None None]))
      (inr (mkFrame ["payment_timestamp"] []))
      (fun _ => None)
    = mkLoaded None None None
        (Some ("Error loading data: " ++ detail)%string).
Proof.
  apply (load_data_unparseable_trip
           (mkFrame ["driver_id"] Sample.drivers)
           (mkFrame ["trip_datetime"]
              [RawTrip.mk 1 1 None None (Some "yesterday") "completed"
                 None None None None None])
           (mkFrame ["payment_timestamp"] [])
           (fun _ => None)
           (RawTrip.mk 1 1 None None (Some "yesterday") "completed"
              None None None None None)
           "yesterday").
  - left. reflexivity.
  - left. reflexivity.
  - reflexivity.
  - reflexivity.
Defined.

(** The first read that fails decides the outcome: when it fails with
    [FileNotFoundError], whatever the other files hold, no table is
    returned and the message is the "not found" one. *)
Theorem load_data_file_missing
  (rd : Result (Frame Driver.t)) (rt : Result (Frame RawTrip.t))
  (rp : Result (Frame RawPayment.t)) (parse : string -> option Timestamp) :
  (exists path, rd = inl (FileNotFoundError path))
  \/ (exists fd path, rd = inr fd /\ rt = inl (FileNotFoundError path))
  \/ (exists fd ft path,
        rd = inr fd /\ rt = inr ft /\ rp = inl (FileNotFoundError path)) ->
  load_data rd rt rp parse = mkLoaded None None None (Some not_found_message).
Proof.
  intros [[path ->] | [[fd [path [-> ->]]] | [fd [ft [path (-> & -> & ->)]]]]];
    reflexivity.
Qed.

Lemma load_data_file_missing_witness :
  load_data (inr (mkFrame ["driver_id"] Sample.drivers))
    (inl (FileNotFoundError "data/trips.csv"))
    (inl (OtherError "not read"))
    (fun _ => None)
  = mkLoaded None None None (Some not_found_message).
Proof.
  apply load_data_file_missing. right. left.
  exists (mkFrame ["driver_id"] Sample.drivers), "data/trips.csv".
  split; reflexivity.
Defined.

(** A trips file that lacks the [trip_datetime] column fails the load
    with the generic message, although all three files were read. *)
Theorem load_data_missing_column
  (fd : Frame Driver.t) (ft : Frame RawTrip.t) (fp : Frame RawPayment.t)
  (parse : string -> option Timestamp) :
  ~ In "trip_datetime" (columns ft) ->
  exists detail,
    load_data (inr fd) (inr ft) (inr fp) parse
    = mkLoaded None None None
        (Some ("Error loading data: " ++ detail)%string).
Proof.
  intros Hno. exists "trip_datetime".
  unfold load_data, load_data_body. simpl bind.
  unfold getitem at 1.
  destruct (existsb (String.eqb "trip_datetime") (columns ft)) eqn:E.
  - exfalso. apply Hno. apply existsb_exists in E.
    destruct E as [c [Hc E]]. apply String.eqb_eq in E. subst c. exact Hc.
  - reflexivity.
Qed.

Lemma load_data_missing_column_witness :
  exists detail,
    load_data (inr (mkFrame ["driver_id"] Sample.drivers))
      (inr (mkFrame ["trip_id"; "pickup_borough"] []))
      (inr (mkFrame ["payment_timestamp"] []))
      (fun _ => None)
    = mkLoaded None None None
        (Some ("Error loading data: " ++ detail)%string).
Proof.
  apply load_data_missing_column.
  intros [E | [E | []]]; discriminate.
Defined.

(** ** Loader: the calendar columns *)

Lemma dt_day_name_in_day_order (ts : Timestamp) : In (dt_day_name ts) day_order.
Proof.
  unfold dt_day_name.
  assert (Hm : 0 <= (dt_date ts + 3) mod 7 < 7)
    by (apply Z.mod_pos_bound; lia).
  set (n := Z.to_nat ((dt_date ts + 3) mod 7)).
  assert (Hn : (n < 7)%nat) by (unfold n; lia).
  clearbody n.
  do 7 (destruct n as [| n]; [simpl; tauto |]). lia.
Qed.

Lemma derive_calendar_ok (r : RawTrip.t) (ts : option Timestamp) :
  calendar_ok (derive_calendar r ts).
Proof. unfold calendar_ok. simpl. repeat split. Qed.

(** Every trip row the loader returns carries the calendar columns of
    its own timestamp (all empty for NaT), an hour between 0 and 23 and
    one of the seven day names. *)
Theorem loaded_trips_calendar
  (rd : Result (Frame Driver.t)) (rt : Result (Frame RawTrip.t))
  (rp : Result (Frame RawPayment.t)) (parse : string -> option Timestamp)
  (trips : list Trip.t) :
  ld_trips (load_data rd rt rp parse) = Some trips ->
  Forall (fun t =>
            calendar_ok t
            /\ (forall h, Trip.hour t = Some h -> 0 <= h < 24)
            /\ (forall d, Trip.day_of_week t = Some d -> In d day_order))
         trips.
Proof.
  unfold load_data.
  destruct (load_data_body rd rt rp parse) as [e | [[d t] p]] eqn:Hb.
  - destruct e; discriminate.
  - simpl. intros E. injection E as <-.
    apply load_data_body_inr in Hb.
    destruct Hb as [fd [ft [fp (_ & _ & _ & _ & _ & _ & Hts & _)]]].
    induction Hts as [| raw row raws rows' Hrow _ IH]; constructor; [| exact IH].
    unfold preprocess_trip in Hrow.
    apply bind_inr in Hrow. destruct Hrow as [ts [_ Hrow]].
    injection Hrow as <-. split; [apply derive_calendar_ok | split].
    + intros h. apply derive_calendar_hour.
    + simpl. destruct ts as [t0 |]; simpl; [| discriminate].
      intros dname E. injection E as <-. apply dt_day_name_in_day_order.
Qed.

Lemma loaded_trips_calendar_witness :
  Forall (fun t =>
            calendar_ok t
            /\ (forall h, Trip.hour t = Some h -> 0 <= h < 24)
            /\ (forall d, Trip.day_of_week t = Some d -> In d day_order))
         [derive_calendar
            (RawTrip.mk 1 1 (Some "Bronx") None (Some "2024-01-05 08:00:00")
               "completed" None None None None None)
            (Sample.at_ 19727 8)].
Proof.
  apply (loaded_trips_calendar
           (inr (mkFrame ["driver_id"] Sample.drivers))
           (inr (mkFrame ["trip_datetime"]
                   [RawTrip.mk 1 1 (Some "Bronx") None
                      (Some "2024-01-05 08:00:00")
                      "completed" None None None None None]))
           (inr (mkFrame ["payment_timestamp"] []))
           (fun _ => Sample.at_ 19727 8)).
  reflexivity.
Defined.

(** ** Filter engine: which rows pass *)

Lemma isin_true (cell : option string) (values : list string) :
  isin cell values = true <-> exists s, cell = Some s /\ In s values.
Proof.
  unfold isin. destruct cell as [s |].
  - rewrite existsb_exists. split.
    + intros [x [Hx E]]. apply String.eqb_eq in E. subst x.
      exists s. split; [reflexivity | exact Hx].
    + intros [s' [E Hs]]. injection E as <-. exists s.
      split; [exact Hs | apply String.eqb_refl].
  - split; [discriminate | intros [s [E _]]; discriminate].
Qed.

Lemma isin_ids_true (id : Z) (ids : list Z) :
  isin_ids id ids = true <-> In id ids.
Proof.
  unfold isin_ids. rewrite existsb_exists. split.
  - intros [x [Hx E]]. apply Z.eqb_eq in E. subst x. exact Hx.
  - intros Hin. exists id. split; [exact Hin | apply Z.eqb_refl].
Qed.

Lemma filtered_trips_In (trips : list Trip.t) (sel : Selection)
  (t : Trip.t) :
  In t (filtered_trips trips sel) <->
  In t trips
  /\ (exists p, Trip.pickup_borough t = Some p /\ In p (selected_pickup sel))
  /\ (exists d, Trip.dropoff_borough t = Some d
                /\ In d (selected_dropoff sel))
  /\ (exists ts, Trip.trip_datetime t = Some ts
                 /\ fst (date_range sel) <= dt_date ts <= snd (date_range sel)).
Proof.
  unfold filtered_trips, trip_mask. rewrite filter_In.
  rewrite !andb_true_iff, !isin_true.
  unfold date_ge, date_le.
  destruct (Trip.trip_datetime t) as [ts |].
  - rewrite !Z.leb_le. split.
    + intros (Hin & ((Hp & Hd) & Hlo) & Hhi). repeat split; try assumption.
      exists ts. split; [reflexivity | lia].
    + intros (Hin & Hp & Hd & [ts' [E Hr]]). injection E as <-.
      repeat split; try assumption; lia.
  - split.
    + intros (_ & (_ & Hf) & _). discriminate.
    + intros (_ & _ & _ & [ts [E _]]). discriminate.
Qed.

(** A trip is kept exactly when it is a row of [trips] whose pickup and
    dropoff boroughs are filled in and selected and whose timestamp is
    filled in and falls on a day of the range, both ends included.  A row
    with an empty borough or an empty timestamp is never kept. *)
Theorem filtered_trips_keeps (trips : list Trip.t) (sel : Selection)
  (t : Trip.t) :
  In t (filtered_trips trips sel) <->
  In t trips
  /\ (exists p, Trip.pickup_borough t = Some p /\ In p (selected_pickup sel))
  /\ (exists d, Trip.dropoff_borough t = Some d
                /\ In d (selected_dropoff sel))
  /\ (exists ts, Trip.trip_datetime t = Some ts
                 /\ fst (date_range sel) <= dt_date ts <= snd (date_range sel)).
Proof. apply filtered_trips_In. Qed.

(** With no pickup borough selected, no dropoff borough selected, or a
    date range whose start is after its end, every output of the filter
    engine is empty. *)
Theorem empty_selection_empties_everything
  (drivers : list Driver.t) (trips : list Trip.t) (payments : list Payment.t)
  (sel : Selection) :
  selected_pickup sel = [] \/ selected_dropoff sel = []
  \/ snd (date_range sel) < fst (date_range sel) ->
  let s := run_filters drivers trips payments sel in
  Store.filtered_trips s = []
  /\ Store.filtered_trips_with_drivers s = []
  /\ Store.filtered_drivers s = []
  /\ Store.filtered_payments s = [].
Proof.
  intros Hsel.
  assert (Hft : filtered_trips trips sel = []).
  { destruct (filtered_trips trips sel) as [| t ft] eqn:E; [reflexivity |].
    assert (Hin : In t (filtered_trips trips sel))
      by (rewrite E; left; reflexivity).
    apply filtered_trips_In in Hin.
    destruct Hin as (_ & [p [_ Hp]] & [d [_ Hd]] & [ts [_ Hr]]).
    destruct Hsel as [H | [H | H]].
    - rewrite H in Hp. contradiction.
    - rewrite H in Hd. contradiction.
    - lia. }
  unfold run_filters. cbn. rewrite Hft. cbn.
  repeat split; try reflexivity.
  - induction drivers as [| d ds IH]; [reflexivity | exact IH].
  - induction payments as [| p ps IH]; [reflexivity | exact IH].
Qed.

Lemma empty_selection_empties_everything_witness :
  Store.filtered_trips
    (run_filters Sample.drivers Sample.trips Sample.payments Sample.nothing)
  = []
  /\ Store.filtered_payments
       (run_filters Sample.drivers Sample.trips Sample.payments Sample.nothing)
     = [].
Proof.
  destruct (empty_selection_empties_everything Sample.drivers Sample.trips
              Sample.payments Sample.nothing) as (H1 & _ & _ & H4).
  - left. reflexivity.
  - split; [exact H1 | exact H4].
Defined.

(** Two selections applied one after the other keep the same rows in
    either order. *)
Theorem filtered_trips_commute (T : list Trip.t) (S1 S2 : Selection) :
  filtered_trips (filtered_trips T S1) S2
  = filtered_trips (filtered_trips T S2) S1.
Proof.
  unfold filtered_trips. induction T as [| t T IH]; simpl.
  - reflexivity.
  - destruct (trip_mask S1 t) eqn:E1; destruct (trip_mask S2 t) eqn:E2;
      simpl; rewrite ?E1, ?E2, IH; reflexivity.
Qed.

(** A driver is in [filtered_drivers] exactly when some filtered trip
    names it, and a payment is in [filtered_payments] exactly when some
    filtered trip has its [trip_id]: a payment of a trip that was filtered
    out, or of no trip at all, is left out without an error. *)
Theorem derived_tables_keep
  (drivers : list Driver.t) (payments : list Payment.t) (ft : list Trip.t) :
  (forall d, In d (filtered_drivers drivers ft) <->
             In d drivers
             /\ exists t, In t ft /\ Trip.driver_id t = Driver.driver_id d)
  /\ (forall p, In p (filtered_payments payments ft) <->
                In p payments
                /\ exists t, In t ft /\ Trip.trip_id t = Payment.trip_id p).
Proof.
  split.
  - intros d. unfold filtered_drivers.
    rewrite filter_In, isin_ids_true, in_map_iff. split.
    + intros [Hd [t [E Ht]]]. split; [exact Hd |]. exists t. split; assumption.
    + intros [Hd [t [Ht E]]]. split; [exact Hd |]. exists t. split; assumption.
  - intros p. unfold filtered_payments.
    rewrite filter_In, isin_ids_true, in_map_iff. split.
    + intros [Hp [t [E Ht]]]. split; [exact Hp |]. exists t. split; assumption.
    + intros [Hp [t [Ht E]]]. split; [exact Hp |]. exists t. split; assumption.
Qed.

(** ** Filter engine: the merge with drivers *)

Lemma filter_unique_key {A : Type} (f : A -> Z) (l : list A) (k : Z) :
  NoDup (map f l) ->
  filter (fun a => f a =? k) l = []
  \/ exists a, filter (fun a => f a =? k) l = [a].
Proof.
  induction l as [| a l IH]; simpl; intros Hnd.
  - left. reflexivity.
  - inversion Hnd as [| ? ? Hnotin Hnd']; subst.
    destruct (f a =? k) eqn:E.
    + right. exists a. f_equal.
      destruct (filter (fun a0 => f a0 =? k) l) as [| b bs] eqn:Hf;
        [reflexivity |].
      assert (Hb : In b (filter (fun a0 => f a0 =? k) l))
        by (rewrite Hf; left; reflexivity).
      apply filter_In in Hb. destruct Hb as [Hb Ek].
      apply Z.eqb_eq in E. apply Z.eqb_eq in Ek.
      exfalso. apply Hnotin. rewrite E, <- Ek. apply in_map. exact Hb.
    + apply IH. exact Hnd'.
Qed.

(** When no two driver rows share a [driver_id], the left merge has
    exactly one row per filtered trip, in trip order. *)
Theorem merge_keeps_trips_when_ids_unique
  (ft : list Trip.t) (drivers : list Driver.t) :
  NoDup (map Driver.driver_id drivers) ->
  map TripDriver.trip (merge_trips_drivers ft drivers) = ft.
Proof.
  intros Hnd. unfold merge_trips_drivers.
  induction ft as [| t ft IH]; simpl.
  - reflexivity.
  - rewrite map_app, IH. unfold merge_trip.
    destruct (filter_unique_key Driver.driver_id drivers (Trip.driver_id t) Hnd)
      as [-> | [d ->]]; reflexivity.
Qed.

Lemma merge_keeps_trips_when_ids_unique_witness :
  map TripDriver.trip (merge_trips_drivers Sample.trips Sample.drivers)
  = Sample.trips.
Proof.
  apply merge_keeps_trips_when_ids_unique.
  repeat constructor; simpl; intros H;
    repeat (destruct H as [H | H]; [discriminate |]); exact H.
Defined.

(** The left merge never loses a trip: every filtered trip has at least
    one row in the merged frame, and every merged row comes from a
    filtered trip. *)
Theorem merge_covers_trips (ft : list Trip.t) (drivers : list Driver.t) :
  (forall t, In t ft <->
             In t (map TripDriver.trip (merge_trips_drivers ft drivers)))
  /\ (List.length ft <= List.length (merge_trips_drivers ft drivers))%nat.
Proof.
  assert (Hne : forall t, exists r, In r (merge_trip drivers t)).
  { intros t. unfold merge_trip.
    destruct (filter (fun d => Driver.driver_id d =? Trip.driver_id t) drivers);
      eexists; left; reflexivity. }
  split.
  - intros t. rewrite in_map_iff. unfold merge_trips_drivers. split.
    + intros Ht. destruct (Hne t) as [r Hr]. exists r.
      split; [exact (merge_trip_trip _ _ _ Hr) |].
      apply in_flat_map. exists t. split; assumption.
    + intros [r [<- Hr]]. apply in_flat_map in Hr.
      destruct Hr as [t' [Ht' Hr]].
      rewrite (merge_trip_trip _ _ _ Hr). exact Ht'.
  - unfold merge_trips_drivers. induction ft as [| t ft IH]; simpl.
    + lia.
    + rewrite length_app. destruct (Hne t) as [r Hr].
      destruct (merge_trip drivers t); [contradiction | simpl; lia].
Qed.

Lemma filtered_trips_with_drivers_In
  (ft : list Trip.t) (drivers : list Driver.t) (sel : Selection)
  (r : TripDriver.t) :
  In r (filtered_trips_with_drivers ft drivers sel) <->
  In (TripDriver.trip r) ft
  /\ exists d,
       In d drivers
       /\ Driver.driver_id d = Trip.driver_id (TripDriver.trip r)
       /\ TripDriver.vehicle_type r = Some (Driver.vehicle_type d)
       /\ In (Driver.vehicle_type d) (selected_vehicle_types sel).
Proof.
  unfold filtered_trips_with_drivers, merge_trips_drivers, vehicle_mask.
  rewrite filter_In, in_flat_map, isin_true. split.
  - intros [[t [Ht Hr]] [v [Hv Hsel]]].
    pose proof (merge_trip_trip _ _ _ Hr) as Etrip.
    split; [rewrite Etrip; exact Ht |].
    unfold merge_trip in Hr.
    destruct (filter (fun d => Driver.driver_id d =? Trip.driver_id t) drivers)
      as [| d0 ds] eqn:Hf.
    + destruct Hr as [<- | []]. discriminate.
    + apply in_map_iff in Hr. destruct Hr as [d [<- Hd]].
      rewrite <- Hf in Hd. apply filter_In in Hd. destruct Hd as [Hd Eid].
      apply Z.eqb_eq in Eid. simpl in Hv. injection Hv as <-.
      exists d. simpl. repeat split; assumption.
  - intros [Ht [d (Hd & Eid & Hv & Hsel)]].
    split; [| exists (Driver.vehicle_type d); split; assumption].
    exists (TripDriver.trip r). split; [exact Ht |].
    unfold merge_trip.
    assert (Hin : In d (filter (fun d0 => Driver.driver_id d0
                                          =? Trip.driver_id (TripDriver.trip r))
                          drivers)).
    { apply filter_In. split; [exact Hd | apply Z.eqb_eq; exact Eid]. }
    destruct (filter (fun d0 => Driver.driver_id d0
                                =? Trip.driver_id (TripDriver.trip r)) drivers)
      as [| d0 ds]; [contradiction |].
    apply in_map_iff. exists d. split; [| exact Hin].
    destruct r as [t v]. simpl in *. rewrite Hv. reflexivity.
Qed.

(** A row is in [filtered_trips_with_drivers] exactly when its trip is a
    filtered trip and its [vehicle_type] is that of a driver row with the
    trip's [driver_id], and that vehicle type is selected. *)
Theorem filtered_trips_with_drivers_rows
  (ft : list Trip.t) (drivers : list Driver.t) (sel : Selection)
  (r : TripDriver.t) :
  In r (filtered_trips_with_drivers ft drivers sel) <->
  In (TripDriver.trip r) ft
  /\ exists d,
       In d drivers
       /\ Driver.driver_id d = Trip.driver_id (TripDriver.trip r)
       /\ TripDriver.vehicle_type r = Some (Driver.vehicle_type d)
       /\ In (Driver.vehicle_type d) (selected_vehicle_types sel).
Proof. apply filtered_trips_with_drivers_In. Qed.

(** ** Percentages *)

Lemma percentage_bounds (c n : Z) :
  0 <= c <= n -> 0 < n ->
  (0 <= inject_Z c / inject_Z n * 100)%Q
  /\ (inject_Z c / inject_Z n * 100 <= 100)%Q.
Proof.
  intros [Hc Hle] Hpos.
  assert (Hn : (0 < inject_Z n)%Q) by (rewrite (Zlt_Qlt 0 n) in Hpos; exact Hpos).
  split.
  - apply Qmult_le_0_compat; [| discriminate].
    apply Qle_shift_div_l; [exact Hn |].
    rewrite Qmult_0_l. rewrite (Zle_Qle 0 c) in Hc. exact Hc.
  - setoid_replace 100%Q with (1 * 100)%Q at 2 by reflexivity.
    apply Qmult_le_compat_r; [| discriminate].
    apply Qle_shift_div_r; [exact Hn |].
    rewrite Qmult_1_l. rewrite <- Zle_Qle. exact Hle.
Qed.

(** On a payment table with at least one row the payment success rate is
    computed and lies between 0 and 100. *)
Theorem payment_success_rate_bounds (fp : list Payment.t) :
  fp <> [] ->
  exists q, payment_success_rate fp = inr q /\ (0 <= q)%Q /\ (q <= 100)%Q.
Proof.
  intros Hne. pose proof (len_pos fp Hne) as Hpos.
  unfold payment_success_rate. rewrite truediv_inr by lia. simpl.
  eexists. split; [reflexivity |].
  apply percentage_bounds; [| exact Hpos].
  split; [apply len_nonneg | apply len_filter_le].
Qed.

Lemma payment_success_rate_bounds_witness :
  exists q,
    payment_success_rate Sample.payments = inr q
    /\ (0 <= q)%Q /\ (q <= 100)%Q.
Proof.
  apply (payment_success_rate_bounds Sample.payments). discriminate.
Defined.

(** ** When the metrics run raises *)


(** ** Group-by: the groups partition the rows that have a key *)

Lemma Permutation_filter {A : Type} (f : A -> bool) (l l' : list A) :
  Permutation l l' -> Permutation (filter f l) (filter f l').
Proof.
  induction 1 as [| a l l' _ IH | a b l | l1 l2 l3 _ IH1 _ IH2]; simpl.
  - constructor.
  - destruct (f a); [apply perm_skip |]; exact IH.
  - destruct (f a), (f b); try apply Permutation_refl. apply perm_swap.
  - eapply perm_trans; eassumption.
Qed.

Lemma flat_map_nil {A B : Type} (l : list A) :
  flat_map (fun _ : A => @nil B) l = [].
Proof. induction l as [| a l IH]; [reflexivity | exact IH]. Qed.

Lemma flat_map_map {A B C : Type} (g : A -> B) (f : B -> list C) (l : list A) :
  flat_map f (map g l) = flat_map (fun a => f (g a)) l.
Proof.
  induction l as [| a l IH]; simpl; [reflexivity | rewrite IH; reflexivity].
Qed.

Lemma flat_map_ext_in {A B : Type} (f g : A -> list B) (l : list A) :
  (forall a, In a l -> f a = g a) -> flat_map f l = flat_map g l.
Proof.
  induction l as [| a l IH]; simpl; intros Hfg.
  - reflexivity.
  - rewrite (Hfg a (or_introl eq_refl)), IH; [reflexivity |].
    intros a' Ha'. apply Hfg. right. exact Ha'.
Qed.

Section Partition.
Context {K : Type} `{LawfulKey K} {R : Type}.
Variable key : R -> option K.

Lemma has_key_none (k : K) (r : R) : key r = None -> has_key key k r = false.
Proof. unfold has_key. intros ->. reflexivity. Qed.

Lemma flat_map_add_row (F : K -> list R) (ks : list K) (r : R) (k0 : K) :
  NoDup ks -> In k0 ks -> key r = Some k0 ->
  Permutation
    (flat_map (fun k => if has_key key k r then r :: F k else F k) ks)
    (r :: flat_map F ks).
Proof.
  intros Hnd Hin Hk. induction Hnd as [| k ks Hnotin Hnd IH]; simpl.
  - contradiction.
  - destruct (has_key key k r) eqn:E.
    + apply has_key_true in E. rewrite Hk in E. injection E as ->.
      simpl. apply perm_skip. apply Permutation_app_head.
      rewrite (flat_map_ext_in _ F); [apply Permutation_refl |].
      intros k' Hk'. destruct (has_key key k' r) eqn:E'; [| reflexivity].
      apply has_key_true in E'. rewrite Hk in E'. injection E' as ->.
      contradiction.
    + destruct Hin as [-> | Hin].
      * assert (Et : has_key key k0 r = true) by (apply has_key_true; exact Hk).
        congruence.
      * eapply perm_trans;
          [apply Permutation_app_head; exact (IH Hin) |].
        apply Permutation_sym, Permutation_middle.
Qed.

(** For any duplicate-free list of keys that covers the keys of [df],
    the rows selected key by key are the rows of [df] that have a key. *)
Lemma keys_partition (ks : list K) (df : list R) :
  NoDup ks ->
  (forall r k, In r df -> key r = Some k -> In k ks) ->
  Permutation (flat_map (fun k => filter (has_key key k) df) ks)
              (filter (fun r => notna (key r)) df).
Proof.
  intros Hnd. induction df as [| r df IH]; intros Hcov.
  - simpl. rewrite flat_map_nil. constructor.
  - assert (IH' : Permutation
                    (flat_map (fun k => filter (has_key key k) df) ks)
                    (filter (fun r => notna (key r)) df)).
    { apply IH. intros r' k Hr'. apply Hcov. right. exact Hr'. }
    simpl. destruct (key r) as [k0 |] eqn:Hk; simpl.
    + eapply perm_trans;
        [apply (flat_map_add_row (fun k => filter (has_key key k) df)
                  ks r k0 Hnd) | apply perm_skip; exact IH'].
      * apply (Hcov r k0); [left; reflexivity | exact Hk].
      * exact Hk.
    + rewrite (flat_map_ext_in _ (fun k => filter (has_key key k) df));
        [exact IH' |].
      intros k _. rewrite (has_key_none k r Hk). reflexivity.
Qed.

Lemma groupby_partition (df : list R) :
  Permutation (flat_map snd (groupby key df))
              (filter (fun r => notna (key r)) df).
Proof.
  assert (E : flat_map snd (groupby key df)
              = flat_map (fun k => filter (has_key key k) df)
                  (map fst (groupby key df))).
  { unfold groupby. rewrite map_map, !flat_map_map. reflexivity. }
  rewrite E. apply keys_partition.
  - apply groupby_keys_NoDup.
  - intros r k Hr Hk. apply groupby_keys. exists r. split; assumption.
Qed.

End Partition.

Lemma totalZ_perm (l l' : list Z) : Permutation l l' -> totalZ l = totalZ l'.
Proof.
  induction 1 as [| a l l' _ IH | a b l | l1 l2 l3 _ IH1 _ IH2]; simpl; lia.
Qed.

Lemma len_app {A : Type} (l l' : list A) : len (l ++ l') = len l + len l'.
Proof. unfold len. rewrite length_app. lia. Qed.

Lemma totalZ_len_flat_map {A B : Type} (F : A -> list B) (l : list A) :
  totalZ (map (fun a => len (F a)) l) = len (flat_map F l).
Proof.
  induction l as [| a l IH]; simpl.
  - reflexivity.
  - rewrite len_app, IH. reflexivity.
Qed.

Lemma filter_flat_map {A B : Type} (f : B -> bool) (F : A -> list B)
  (l : list A) :
  filter f (flat_map F l) = flat_map (fun a => filter f (F a)) l.
Proof.
  induction l as [| a l IH]; simpl.
  - reflexivity.
  - rewrite filter_app, IH. reflexivity.
Qed.

Lemma len_perm {A : Type} (l l' : list A) : Permutation l l' -> len l = len l'.
Proof. intros Hp. unfold len. rewrite (Permutation_length Hp). reflexivity. Qed.

(** The hit counts of a rate table add up to the number of hits among
    the rows that have a key, and so do the totals. *)
Lemma rate_table_totals {K R : Type} `{LawfulKey K}
  (key : R -> option K) (hit : R -> bool) (df : list R) :
  totalZ (map rr_total (rate_table key hit df))
  = len (filter (fun r => notna (key r)) df)
  /\ totalZ (map rr_hits (rate_table key hit df))
     = len (filter hit (filter (fun r => notna (key r)) df)).
Proof.
  unfold rate_table. rewrite !map_map. simpl. split.
  - rewrite (totalZ_len_flat_map snd). apply len_perm, groupby_partition.
  - rewrite (totalZ_len_flat_map (fun kg => filter hit (snd kg))).
    rewrite <- filter_flat_map.
    apply len_perm, Permutation_filter, groupby_partition.
Qed.

Lemma filter_all {A : Type} (f : A -> bool) (l : list A) :
  (forall a, In a l -> f a = true) -> filter f l = l.
Proof.
  induction l as [| a l IH]; simpl; intros Hf.
  - reflexivity.
  - rewrite (Hf a (or_introl eq_refl)), IH; [reflexivity |].
    intros a' Ha'. apply Hf. right. exact Ha'.
Qed.

(** ** Tab 1: completion by borough *)

(** Over the filtered trips the borough table accounts for every trip
    once: its [total_trips] column adds up to the Total Trips KPI and its
    [completed_trips] column to the number of completed trips. *)
Theorem borough_completion_accounts_for_all_trips
  (trips : list Trip.t) (sel : Selection) :
  let ft := filtered_trips trips sel in
  totalZ (map rr_total (borough_completion ft)) = total_trips ft
  /\ totalZ (map rr_hits (borough_completion ft)) = len (filter completed ft).
Proof.
  intros ft.
  assert (Hall : filter (fun t => notna (Trip.pickup_borough t)) ft = ft).
  { apply filter_all. intros t Ht. apply filtered_trips_In in Ht.
    destruct Ht as (_ & [p [-> _]] & _). reflexivity. }
  unfold borough_completion, total_trips.
  destruct (rate_table_totals Trip.pickup_borough completed ft) as [Ht Hh].
  rewrite Ht, Hh, Hall. split; reflexivity.
Qed.

(** Every row of a rate table stands for a non-empty group: its total is
    positive, its hits are between 0 and the total, and its rate is a
    number between 0 and 100, never an empty cell. *)
Lemma rate_table_rows {K R : Type} `{LawfulKey K}
  (key : R -> option K) (hit : R -> bool) (df : list R) (row : RateRow K) :
  In row (rate_table key hit df) ->
  rr_total row = len (filter (has_key key (rr_key row)) df)
  /\ rr_hits row = len (filter hit (filter (has_key key (rr_key row)) df))
  /\ 0 < rr_total row
  /\ 0 <= rr_hits row <= rr_total row
  /\ exists q, rr_rate row = Some q /\ (0 <= q)%Q /\ (q <= 100)%Q.
Proof.
  unfold rate_table. intros Hin. apply in_map_iff in Hin.
  destruct Hin as [[k g] [<- Hin]]. simpl.
  destruct (groupby_group _ _ _ _ Hin) as [Hg Hne]. subst g.
  set (g := filter (has_key key k) df) in *.
  pose proof (len_pos g Hne) as Hpos.
  pose proof (len_filter_le hit g) as Hle.
  pose proof (len_nonneg (filter hit g)) as Hc.
  repeat split; try assumption.
  unfold div.
  destruct (Qeq_bool (inject_Z (len g)) 0) eqn:E.
  - apply Qeq_bool_iff in E.
    assert (Hz : (inject_Z 0 < inject_Z (len g))%Q)
      by (rewrite <- Zlt_Qlt; exact Hpos).
    rewrite E in Hz. exfalso. exact (Qlt_irrefl _ Hz).
  - simpl. eexists. split; [reflexivity |].
    apply percentage_bounds; [split; assumption | exact Hpos].
Qed.

(** Each borough row counts the trips picked up in its borough and the
    completed ones among them, has at least one trip, and has a
    completion rate between 0 and 100. *)
Theorem borough_completion_rows (ft : list Trip.t) (row : RateRow string) :
  In row (borough_completion ft) ->
  rr_total row
  = len (filter (has_key Trip.pickup_borough (rr_key row)) ft)
  /\ rr_hits row
     = len (filter completed
              (filter (has_key Trip.pickup_borough (rr_key row)) ft))
  /\ 0 < rr_total row
  /\ 0 <= rr_hits row <= rr_total row
  /\ exists q, rr_rate row = Some q /\ (0 <= q)%Q /\ (q <= 100)%Q.
Proof. apply rate_table_rows. Qed.

Lemma borough_completion_rows_witness :
  exists q,
    rr_rate (mkRateRow "Manhattan" 2 1 (Some (100 # 2))) = Some q
    /\ (0 <= q)%Q /\ (q <= 100)%Q.
Proof.
  destruct (borough_completion_rows Sample.trips
              (mkRateRow "Manhattan" 2 1 (Some (100 # 2))))
    as (_ & _ & _ & _ & Hq).
  - right. left. reflexivity.
  - exact Hq.
Defined.

(** Each payment-method row counts the payments made with its method and
    the successful ones among them, and has a success rate between 0 and
    100. *)
Theorem payment_success_rows (fp : list Payment.t) (row : RateRow string) :
  In row (payment_success fp) ->
  rr_total row
  = len (filter (has_key (fun p => Some (Payment.payment_method p))
                   (rr_key row)) fp)
  /\ rr_hits row
     = len (filter successful
              (filter (has_key (fun p => Some (Payment.payment_method p))
                         (rr_key row)) fp))
  /\ 0 < rr_total row
  /\ 0 <= rr_hits row <= rr_total row
  /\ exists q, rr_rate row = Some q /\ (0 <= q)%Q /\ (q <= 100)%Q.
Proof. apply rate_table_rows. Qed.

Lemma payment_success_rows_witness :
  0 < rr_total (mkRateRow "card" 2 1 (Some (100 # 2)))
  /\ exists q,
       rr_rate (mkRateRow "card" 2 1 (Some (100 # 2))) = Some q
       /\ (0 <= q)%Q /\ (q <= 100)%Q.
Proof.
  destruct (payment_success_rows Sample.payments
              (mkRateRow "card" 2 1 (Some (100 # 2))))
    as (_ & _ & Hpos & _ & Hq).
  - left. reflexivity.
  - split; [exact Hpos | exact Hq].
Defined.

(** ** Tab 4: demand totals *)

Lemma NoDup_day_order : NoDup day_order.
Proof.
  unfold day_order.
  repeat (constructor;
          [simpl; intros H;
           repeat (destruct H as [H | H]; [discriminate |]); exact H |]).
  constructor.
Qed.

Lemma count_or_zero_lookup {R : Type} (key : R -> option string)
  (df : list R) (k : string) :
  count_or_zero (lookup k (agg len (groupby key df)))
  = len (filter (has_key key k) df).
Proof.
  rewrite lookup_agg.
  destruct (filter (has_key key k) df); reflexivity.
Qed.

(** For trips whose calendar columns are those of their timestamps (as
    the loader leaves them), the hourly and the day-of-week tables each
    account for every filtered trip once: the hourly counts add up to the
    Total Trips KPI, and so do the seven daily counts when an empty count
    is read as 0. *)
Theorem demand_tables_account_for_all_trips
  (trips : list Trip.t) (sel : Selection) :
  Forall calendar_ok trips ->
  let ft := filtered_trips trips sel in
  totalZ (map snd (hourly_demand ft)) = total_trips ft
  /\ totalZ (map count_or_zero (map snd (daily_demand ft))) = total_trips ft.
Proof.
  intros Hcal ft.
  assert (Hts : forall t, In t ft ->
                  calendar_ok t /\ exists ts, Trip.trip_datetime t = Some ts).
  { intros t Ht. apply filtered_trips_In in Ht.
    destruct Ht as (Hin & _ & _ & [ts [Hts _]]).
    rewrite Forall_forall in Hcal. split; [exact (Hcal t Hin) |].
    exists ts. exact Hts. }
  split.
  - unfold hourly_demand, agg, total_trips. rewrite map_map. simpl.
    rewrite (totalZ_len_flat_map snd).
    rewrite (len_perm _ _ (groupby_partition Trip.hour ft)).
    f_equal. apply filter_all. intros t Ht.
    destruct (Hts t Ht) as [(Hh & _) [ts Ets]].
    rewrite Hh, Ets. reflexivity.
  - unfold daily_demand, reindex, total_trips. rewrite !map_map. cbn [snd].
    rewrite (map_ext _ (fun d => len (filter (has_key Trip.day_of_week d) ft)))
      by (intros d; apply count_or_zero_lookup).
    rewrite (totalZ_len_flat_map
               (fun d => filter (has_key Trip.day_of_week d) ft)).
    assert (Hcov : forall t d, In t ft -> Trip.day_of_week t = Some d ->
                     In d day_order).
    { intros t d Ht Hd.
      destruct (Hts t Ht) as [(_ & Hdow & _) [ts Ets]].
      rewrite Hdow, Ets in Hd. simpl in Hd. injection Hd as <-.
      apply dt_day_name_in_day_order. }
    rewrite (len_perm _ _
               (keys_partition Trip.day_of_week day_order ft
                  NoDup_day_order Hcov)).
    f_equal. apply filter_all. intros t Ht.
    destruct (Hts t Ht) as [(_ & Hd & _) [ts Ets]].
    rewrite Hd, Ets. reflexivity.
Qed.

Lemma demand_tables_account_for_all_trips_witness :
  totalZ (map snd (hourly_demand
                     (filtered_trips Sample.tue_fri Sample.everything)))
  = total_trips (filtered_trips Sample.tue_fri Sample.everything)
  /\ totalZ (map count_or_zero
               (map snd (daily_demand
                           (filtered_trips Sample.tue_fri Sample.everything))))
     = total_trips (filtered_trips Sample.tue_fri Sample.everything).
Proof.
  apply (demand_tables_account_for_all_trips Sample.tue_fri Sample.everything).
  repeat constructor.
Defined.

Lemma sorted_le_NoDup_lt (l : list Z) :
  StronglySorted Z.le l -> NoDup l -> StronglySorted Z.lt l.
Proof.
  induction 1 as [| a l Hs IH Ha]; intros Hnd.
  - constructor.
  - inversion Hnd as [| ? ? Hnotin Hnd']; subst.
    constructor; [exact (IH Hnd') |].
    rewrite Forall_forall in *. intros b Hb.
    specialize (Ha b Hb).
    assert (a <> b) by (intros ->; contradiction). lia.
Qed.

(** The rows of the hourly table come in strictly increasing hour
    order. *)
Theorem hourly_demand_in_hour_order (ft : list Trip.t) :
  StronglySorted Z.lt (map fst (hourly_demand ft)).
Proof.
  apply sorted_le_NoDup_lt.
  - unfold hourly_demand. rewrite agg_keys. unfold groupby.
    rewrite map_map. simpl. rewrite map_id. apply sort_keys_sorted.
  - unfold hourly_demand. rewrite agg_keys. apply groupby_keys_NoDup.
Qed.

(** ** Value counts *)

Lemma value_counts_keys {K : Type} `{LawfulKey K} (col : list (option K))
  (k : K) :
  In k (map fst (value_counts col)) <-> In (Some k) col.
Proof.
  unfold value_counts. split.
  - intros Hin.
    apply (Permutation_in _ (Permutation_map fst (sort_desc_perm _ _))) in Hin.
    rewrite agg_keys in Hin. apply groupby_keys in Hin.
    destruct Hin as [c [Hc ->]]. exact Hc.
  - intros Hin.
    apply (Permutation_in _
             (Permutation_sym (Permutation_map fst (sort_desc_perm _ _)))).
    rewrite agg_keys. apply groupby_keys. exists (Some k).
    split; [exact Hin | reflexivity].
Qed.

Lemma value_counts_total {K : Type} `{LawfulKey K} (col : list (option K)) :
  totalZ (map snd (value_counts col)) = len (filter notna col).
Proof.
  unfold value_counts.
  rewrite (totalZ_perm _ _ (Permutation_map snd (sort_desc_perm _ _))).
  unfold agg. rewrite map_map. simpl.
  rewrite (totalZ_len_flat_map snd).
  apply len_perm. apply (groupby_partition (fun c : option K => c)).
Qed.

Lemma len_filter_negb {A : Type} (f : A -> bool) (l : list A) :
  len (filter (fun a => negb (f a)) l) = len l - len (filter f l).
Proof.
  unfold len. induction l as [| a l IH].
  - reflexivity.
  - cbn [filter]. destruct (f a); cbn [negb List.length]; lia.
Qed.

(** The cancellation breakdown has one bar per status other than
    "completed" that occurs among the filtered trips, never a
    "completed" bar, and its counts add up to the trips that are not
    completed. *)
Theorem cancellation_data_counts (ft : list Trip.t) :
  (forall st, In st (map fst (cancellation_data ft)) <->
              st <> "completed"
              /\ exists t, In t ft /\ Trip.trip_status t = st)
  /\ totalZ (map snd (cancellation_data ft))
     = total_trips ft - len (filter completed ft).
Proof.
  unfold cancellation_data. split.
  - intros st. rewrite value_counts_keys, in_map_iff. split.
    + intros [t [E Ht]]. injection E as <-.
      apply filter_In in Ht. destruct Ht as [Ht Hc].
      split; [| exists t; split; [exact Ht | reflexivity]].
      unfold completed in Hc. intros E.
      apply String.eqb_eq in E. rewrite E in Hc. discriminate.
    + intros [Hne [t [Ht <-]]]. exists t. split; [reflexivity |].
      apply filter_In. split; [exact Ht |].
      unfold completed. apply negb_true_iff. apply String.eqb_neq. exact Hne.
  - rewrite value_counts_total.
    rewrite filter_all.
    + unfold len at 1. rewrite length_map. fold (len (filter (fun t => negb (completed t)) ft)).
      apply len_filter_negb.
    + intros c Hc. apply in_map_iff in Hc. destruct Hc as [t [<- _]].
      reflexivity.
Qed.

(** The vehicle-type pie counts every row of the vehicle-filtered trip
    table once, and has a slice only for selected vehicle types. *)
Theorem vehicle_dist_counts
  (ft : list Trip.t) (drivers : list Driver.t) (sel : Selection) :
  let ftd := filtered_trips_with_drivers ft drivers sel in
  totalZ (map snd (vehicle_dist ftd)) = len ftd
  /\ forall v, In v (map fst (vehicle_dist ftd)) ->
               In v (selected_vehicle_types sel).
Proof.
  intros ftd. unfold vehicle_dist. split.
  - rewrite value_counts_total. rewrite filter_all.
    + unfold len. rewrite length_map. reflexivity.
    + intros c Hc. apply in_map_iff in Hc. destruct Hc as [r [<- Hr]].
      apply filtered_trips_with_drivers_In in Hr.
      destruct Hr as [_ [d (_ & _ & -> & _)]]. reflexivity.
  - intros v Hv. apply value_counts_keys in Hv.
    apply in_map_iff in Hv. destruct Hv as [r [E Hr]].
    apply filtered_trips_with_drivers_In in Hr.
    destruct Hr as [_ [d (_ & _ & Hvt & Hsel)]].
    rewrite Hvt in E. injection E as <-. exact Hsel.
Qed.

(** ** Tab 3: revenue tables *)

Lemma filter_add_month_year (f : Trip.t -> bool) (ft : list Trip.t) :
  (forall t v, f (Trip.set_month_year v t) = f t) ->
  filter f (add_month_year ft) = add_month_year (filter f ft).
Proof.
  intros Hf. unfold add_month_year. induction ft as [| t ft IH]; simpl.
  - reflexivity.
  - rewrite Hf. destruct (f t); simpl; rewrite IH; reflexivity.
Qed.

Lemma map_add_month_year {A : Type} (col : Trip.t -> A) (ft : list Trip.t) :
  (forall t v, col (Trip.set_month_year v t) = col t) ->
  map col (add_month_year ft) = map col ft.
Proof.
  intros Hc. unfold add_month_year. rewrite map_map. apply map_ext.
  intros t. apply Hc.
Qed.

(** The monthly revenue table, computed on the frame that has the
    [month_year] column, accounts for every completed fare once: its
    amounts add up to the sum of [fare_amount] over the completed
    filtered trips. *)
Theorem monthly_revenue_total (ft : list Trip.t) :
  (total (map snd (monthly_revenue (add_month_year ft)))
   == sum (map Trip.fare_amount (filter completed ft)))%Q.
Proof.
  unfold monthly_revenue. rewrite agg_groupby_values.
  rewrite (total_group_sums Trip.month_year Trip.fare_amount).
  - rewrite filter_add_month_year by reflexivity.
    rewrite map_add_month_year by reflexivity. reflexivity.
  - apply groupby_keys_NoDup.
  - intros t Ht. pose proof Ht as Hrow.
    apply filter_In in Ht. destruct Ht as [Ht _].
    unfold add_month_year in Ht. apply in_map_iff in Ht.
    destruct Ht as [t0 [E _]].
    exists (to_period_M_str (Trip.trip_datetime t0)).
    assert (Hk : Trip.month_year t
                 = Some (to_period_M_str (Trip.trip_datetime t0)))
      by (rewrite <- E; reflexivity).
    split; [exact Hk |].
    apply groupby_keys. exists t. split; [exact Hrow | exact Hk].
Qed.

(** The revenue-by-vehicle-type table accounts for every completed fare
    of the vehicle-filtered trip table once. *)
Theorem vehicle_revenue_total
  (ft : list Trip.t) (drivers : list Driver.t) (sel : Selection) :
  let ftd := filtered_trips_with_drivers ft drivers sel in
  (total (map snd (vehicle_revenue ftd))
   == sum (trip_column Trip.fare_amount
             (filter (fun r => completed (TripDriver.trip r)) ftd)))%Q.
Proof.
  intros ftd. unfold vehicle_revenue, trip_column.
  rewrite agg_groupby_values.
  apply (total_group_sums TripDriver.vehicle_type
           (fun r => Trip.fare_amount (TripDriver.trip r))).
  - apply groupby_keys_NoDup.
  - intros r Hr. pose proof Hr as Hr'.
    apply filter_In in Hr'. destruct Hr' as [Hin _].
    apply filtered_trips_with_drivers_In in Hin.
    destruct Hin as [_ [d (_ & _ & Hv & _)]].
    exists (Driver.vehicle_type d). split; [exact Hv |].
    apply groupby_keys. exists r. split; assumption.
Qed.

Lemma insert_desc_sorted {R : Type} (col : R -> Q) (r : R) (l : list R) :
  StronglySorted (fun a b => col b <= col a)%Q l ->
  StronglySorted (fun a b => col b <= col a)%Q (insert_desc col r l).
Proof.
  induction 1 as [| x l Hs IH Hx]; simpl.
  - repeat constructor.
  - destruct (Qle_bool (col x) (col r)) eqn:E.
    + apply Qle_bool_iff in E.
      constructor; [constructor; assumption |].
      constructor; [exact E |].
      rewrite Forall_forall in *. intros y Hy.
      eapply Qle_trans; [exact (Hx y Hy) | exact E].
    + assert (Hlt : (col r < col x)%Q).
      { apply Qnot_le_lt. intros Hle. apply Qle_bool_iff in Hle. congruence. }
      constructor; [exact IH |].
      rewrite Forall_forall in *. intros y Hy.
      apply (Permutation_in _ (insert_desc_perm col r l)) in Hy.
      destruct Hy as [<- | Hy]; [apply Qlt_le_weak; exact Hlt | exact (Hx y Hy)].
Qed.

Lemma sort_desc_sorted {R : Type} (col : R -> Q) (df : list R) :
  StronglySorted (fun a b => col b <= col a)%Q (sort_desc col df).
Proof.
  induction df as [| r df IH]; simpl.
  - constructor.
  - apply insert_desc_sorted. exact IH.
Qed.

(** The revenue-by-payment-method table has one row per payment method
    that occurs among the filtered payments, no method twice, largest
    amount first. *)
Theorem payment_revenue_rows (fp : list Payment.t) :
  (forall m, In m (map fst (payment_revenue fp)) <->
             exists p, In p fp /\ Payment.payment_method p = m)
  /\ NoDup (map fst (payment_revenue fp))
  /\ StronglySorted (fun a b => snd b <= snd a)%Q (payment_revenue fp).
Proof.
  unfold payment_revenue.
  set (table := agg _ _).
  assert (Hp : Permutation (map fst (sort_desc snd table)) (map fst table))
    by (apply Permutation_map, sort_desc_perm).
  split; [| split].
  - intros m. split.
    + intros Hin. apply (Permutation_in _ Hp) in Hin.
      unfold table in Hin. rewrite agg_keys in Hin.
      apply groupby_keys in Hin. destruct Hin as [p [Hin E]].
      injection E as <-. exists p. split; [exact Hin | reflexivity].
    + intros [p [Hin <-]].
      apply (Permutation_in _ (Permutation_sym Hp)).
      unfold table. rewrite agg_keys. apply groupby_keys.
      exists p. split; [exact Hin | reflexivity].
  - apply (Permutation_NoDup (Permutation_sym Hp)).
    unfold table. rewrite agg_keys. apply groupby_keys_NoDup.
  - apply sort_desc_sorted.
Qed.

(** ** The column added at line 388 changes no later metric *)

Lemma groupby_add_month_year {K : Type} `{GroupKey K}
  (key : Trip.t -> option K) (ft : list Trip.t) :
  (forall t v, key (Trip.set_month_year v t) = key t) ->
  groupby key (add_month_year ft)
  = map (fun kg => (fst kg, add_month_year (snd kg))) (groupby key ft).
Proof.
  intros Hk. unfold groupby.
  rewrite (map_add_month_year key ft Hk). rewrite map_map.
  apply map_ext. intros k. simpl. f_equal.
  apply filter_add_month_year. intros t v. unfold has_key.
  rewrite Hk. reflexivity.
Qed.

Lemma agg_add_month_year {K V : Type} `{GroupKey K}
  (f : list Trip.t -> V) (g : list (K * list Trip.t)) :
  (forall l, f (add_month_year l) = f l) ->
  agg f (map (fun kg => (fst kg, add_month_year (snd kg))) g) = agg f g.
Proof.
  intros Hf. unfold agg. rewrite map_map. apply map_ext.
  intros kg. simpl. rewrite Hf. reflexivity.
Qed.

(** The demand tables and the insights are computed after line 388 from
    the frame that carries the new column, and come out the same as they
    would from the frame without it. *)
Theorem month_year_column_changes_no_later_metric (s : Store.t) :
  let s' := fst (tab3 s) in
  tab4 s' = tab4 s /\ insights s' = insights s.
Proof.
  unfold tab3. cbv zeta. cbn [fst]. unfold tab4, insights.
  cbn [Store.filtered_trips Store.filtered_payments Store.set_filtered_trips].
  set (ft := Store.filtered_trips s).
  assert (Hh : hourly_demand (add_month_year ft) = hourly_demand ft).
  { unfold hourly_demand. rewrite groupby_add_month_year by reflexivity.
    apply agg_add_month_year. apply len_add_month_year. }
  assert (Hd : daily_demand (add_month_year ft) = daily_demand ft).
  { unfold daily_demand. rewrite groupby_add_month_year by reflexivity.
    rewrite agg_add_month_year by apply len_add_month_year. reflexivity. }
  assert (Hsd : surge_dist (add_month_year ft) = surge_dist ft).
  { unfold surge_dist. rewrite map_add_month_year by reflexivity.
    reflexivity. }
  assert (Hsf : surge_fare (add_month_year ft) = surge_fare ft).
  { unfold surge_fare. rewrite filter_add_month_year by reflexivity.
    rewrite groupby_add_month_year by reflexivity.
    apply agg_add_month_year. intros l.
    rewrite map_add_month_year by reflexivity. reflexivity. }
  assert (Hc : completion_rate (add_month_year ft) = completion_rate ft).
  { unfold completion_rate. rewrite filter_add_month_year by reflexivity.
    rewrite !len_add_month_year. reflexivity. }
  rewrite Hh, Hd, Hsd, Hsf, Hc.
  unfold avg_rating, avg_surge.
  rewrite !map_add_month_year by reflexivity.
  split; reflexivity.
Qed.

(** ** Averages *)









(** ** Tab 2: the rows of the per-driver table *)

Lemma has_key_driver_id (k : Z) (ftd : list TripDriver.t) :
  filter (has_key (fun r => Some (Trip.driver_id (TripDriver.trip r))) k)
    (filter (fun r => completed (TripDriver.trip r)) ftd)
  = completed_trips_of k ftd.
Proof. unfold completed_trips_of. apply filter_ext. intros r. reflexivity. Qed.

Lemma driver_metrics_row_inv
  (ftd : list TripDriver.t) (drivers : list Driver.t) (r : DriverMetrics.t) :
  In r (driver_metrics ftd drivers) ->
  completed_trips_of (DriverMetrics.driver_id r) ftd <> []
  /\ exists vt dr,
       r = driver_metrics_row (DriverMetrics.driver_id r)
             (completed_trips_of (DriverMetrics.driver_id r) ftd) vt dr.
Proof.
  unfold driver_metrics. intros Hin. apply in_flat_map in Hin.
  destruct Hin as [[k g] [Hkg Hr]].
  destruct (groupby_group _ _ _ _ Hkg) as [Hg Hne].
  rewrite has_key_driver_id in Hg. subst g.
  pose proof (proj2 (merge_metrics_rows drivers k _) r Hr) as Hid.
  rewrite Hid. split; [exact Hne |].
  unfold merge_metrics in Hr.
  destruct (filter (fun d => Driver.driver_id d =? k) drivers) as [| d ds].
  - destruct Hr as [<- | []]. eexists. eexists. reflexivity.
  - apply in_map_iff in Hr. destruct Hr as [d' [<- _]].
    eexists. eexists. reflexivity.
Qed.

Lemma Qdiv_zero_iff (x : Q) : (x / 60 == 0 <-> x == 0)%Q.
Proof.
  split; intros E.
  - rewrite <- (Qdiv_mult_l x 60) by discriminate.
    unfold Qdiv in *. rewrite <- Qmult_assoc, (Qmult_comm 60), Qmult_assoc.
    rewrite E. ring.
  - rewrite E. reflexivity.
Qed.

(** Every row of the per-driver table stands for a driver with at least
    one completed trip: [trips_completed] is the number of the driver's
    completed rows and is positive, [total_earnings] is the sum of their
    fares, [earnings_per_trip] is always a number, and
    [earnings_per_hour] is an empty cell exactly when the driver's total
    duration is zero; the row is there all the same. *)
Theorem driver_metrics_rows
  (ftd : list TripDriver.t) (drivers : list Driver.t) (r : DriverMetrics.t) :
  In r (driver_metrics ftd drivers) ->
  let g := completed_trips_of (DriverMetrics.driver_id r) ftd in
  DriverMetrics.trips_completed r = len g
  /\ 0 < DriverMetrics.trips_completed r
  /\ DriverMetrics.total_earnings r = sum (trip_column Trip.fare_amount g)
  /\ DriverMetrics.total_time r = sum (trip_column Trip.duration_minutes g)
  /\ (exists q, DriverMetrics.earnings_per_trip r = Some q)
  /\ (DriverMetrics.earnings_per_hour r = None <->
      (DriverMetrics.total_time r == 0)%Q).
Proof.
  intros Hin g.
  destruct (driver_metrics_row_inv ftd drivers r Hin) as [Hne [vt [dr Er]]].
  fold g in Hne, Er. pose proof (len_pos g Hne) as Hpos.
  rewrite Er. cbn [driver_metrics_row DriverMetrics.trips_completed
                   DriverMetrics.total_earnings DriverMetrics.total_time
                   DriverMetrics.earnings_per_trip
                   DriverMetrics.earnings_per_hour].
  repeat split; try assumption.
  - unfold div.
    destruct (Qeq_bool (inject_Z (len g)) 0) eqn:E.
    + apply Qeq_bool_iff in E.
      assert (Hz : (inject_Z 0 < inject_Z (len g))%Q)
        by (rewrite <- Zlt_Qlt; exact Hpos).
      rewrite E in Hz. exfalso. exact (Qlt_irrefl _ Hz).
    + eexists. reflexivity.
  - unfold div.
    destruct (Qeq_bool (sum (trip_column Trip.duration_minutes g) / 60) 0)
      eqn:E.
    + intros _. apply Qeq_bool_iff in E. apply Qdiv_zero_iff. exact E.
    + discriminate.
  - unfold div. intros Hz. apply Qdiv_zero_iff in Hz.
    apply Qeq_bool_iff in Hz. rewrite Hz. reflexivity.
Qed.

Lemma driver_metrics_rows_witness :
  Forall (fun r => 0 < DriverMetrics.trips_completed r
                   /\ exists q, DriverMetrics.earnings_per_trip r = Some q)
    (driver_metrics
       (filtered_trips_with_drivers Sample.tied Sample.drivers
          Sample.everything) Sample.drivers).
Proof.
  apply Forall_forall. intros r Hr.
  destruct (driver_metrics_rows _ _ r Hr) as (_ & Hpos & _ & _ & Hq & _).
  split; [exact Hpos | exact Hq].
Defined.

(** The efficiency view holds exactly the rows of the per-driver table
    whose driver has at least 5 completed rows in the vehicle-filtered
    trip table. *)
Theorem efficiency_data_rows
  (ftd : list TripDriver.t) (drivers : list Driver.t) (r : DriverMetrics.t) :
  In r (efficiency_data (driver_metrics ftd drivers)) <->
  In r (driver_metrics ftd drivers)
  /\ 5 <= len (completed_trips_of (DriverMetrics.driver_id r) ftd).
Proof.
  unfold efficiency_data. rewrite filter_In. split.
  - intros [Hin Hge]. split; [exact Hin |].
    destruct (driver_metrics_row_inv ftd drivers r Hin) as [_ [vt [dr Er]]].
    rewrite Er in Hge. simpl in Hge. apply Z.leb_le in Hge. exact Hge.
  - intros [Hin Hge]. split; [exact Hin |].
    destruct (driver_metrics_row_inv ftd drivers r Hin) as [_ [vt [dr Er]]].
    rewrite Er. simpl. apply Z.leb_le. exact Hge.
Qed.

(** ** Top earners: the cut *)

Lemma StronglySorted_split {A : Type} (R : A -> A -> Prop) (n : nat)
  (l : list A) :
  StronglySorted R l ->
  forall a b, In a (firstn n l) -> In b (skipn n l) -> R a b.
Proof.
  intros Hs. revert n. induction Hs as [| x l Hs IH Hx]; intros [| n] a b;
    simpl; try contradiction.
  intros [<- | Ha] Hb.
  - rewrite Forall_forall in Hx. apply Hx.
    rewrite <- (firstn_skipn n l). apply in_or_app. right. exact Hb.
  - exact (IH n a b Ha Hb).
Qed.

(** The ranking splits into the top earners and the rest, and every
    driver left out earns no more than every driver taken. *)
Theorem top_earners_cut (ftd : list TripDriver.t) (drivers : list Driver.t) :
  let dm := driver_metrics ftd drivers in
  let rest := skipn 15 (sort_desc DriverMetrics.total_earnings dm) in
  Permutation (top_earners dm ++ rest) dm
  /\ forall a b, In a (top_earners dm) -> In b rest ->
       (DriverMetrics.total_earnings b <= DriverMetrics.total_earnings a)%Q.
Proof.
  intros dm rest. unfold top_earners, nlargest, rest. split.
  - rewrite firstn_skipn. apply sort_desc_perm.
  - intros a b Ha Hb.
    exact (StronglySorted_split _ 15 _ (sort_desc_sorted _ dm) a b Ha Hb).
Qed.

(** ** What the vehicle-type selection does not touch *)

(** Two selections that differ only in the vehicle types give the same
    filtered trips, drivers and payments, hence the same KPI cards, the
    same demand tables and the same insights: the vehicle-type selection
    only reaches the tables built from the merged frame. *)
Theorem vehicle_selection_leaves_kpis
  (drivers : list Driver.t) (trips : list Trip.t) (payments : list Payment.t)
  (sel sel' : Selection) :
  selected_pickup sel = selected_pickup sel' ->
  selected_dropoff sel = selected_dropoff sel' ->
  date_range sel = date_range sel' ->
  let s := run_filters drivers trips payments sel in
  let s' := run_filters drivers trips payments sel' in
  Store.filtered_trips s = Store.filtered_trips s'
  /\ Store.filtered_drivers s = Store.filtered_drivers s'
  /\ Store.filtered_payments s = Store.filtered_payments s'
  /\ kpi_row s = kpi_row s'
  /\ tab4 s = tab4 s'
  /\ insights s = insights s'.
Proof.
  intros Hp Hd Hr.
  assert (Hft : filtered_trips trips sel = filtered_trips trips sel').
  { unfold filtered_trips. apply filter_ext. intros t.
    unfold trip_mask. rewrite Hp, Hd, Hr. reflexivity. }
  cbv zeta. unfold run_filters, kpi_row, tab4, insights.
  cbn [Store.filtered_trips Store.filtered_drivers Store.filtered_payments].
  rewrite Hft. repeat split; reflexivity.
Qed.

Lemma vehicle_selection_leaves_kpis_witness :
  kpi_row (run_filters Sample.drivers Sample.trips Sample.payments
             Sample.everything)
  = kpi_row (run_filters Sample.drivers Sample.trips Sample.payments
               (mkSelection ["Bronx"; "Manhattan"] ["Brooklyn"; "Queens"]
                  ["SUV"] (19727, 19754))).
Proof.
  apply (vehicle_selection_leaves_kpis Sample.drivers Sample.trips
           Sample.payments Sample.everything
           (mkSelection ["Bronx"; "Manhattan"] ["Brooklyn"; "Queens"]
              ["SUV"] (19727, 19754)));
    reflexivity.
Defined.
